(** * OCR worker: job store, retry engine and wake channel

    A shallow embedding of the Python OCR worker
    ([kiro_ocr_worker/{main,db,config}.py], [ocr_worker/{db,config,ocr}.py]).

    The worker talks to PostgreSQL through one psycopg connection opened
    with [autocommit=False], to an HTTP server ([requests.get]) and to the
    vision service.  All of these are modelled by a [World]: the table as
    the session sees it, the table as committed, and finite scripts that
    say what each external call answers.  Python code becomes a state and
    exception monad [M] over [World]. *)

From Stdlib Require Import ZArith String Ascii List Lia DecimalString.
From Stdlib Require Import DecimalPos.
From Stdlib Require Import Floats.PrimFloat.
From stdpp Require Import gmap strings list fin_maps.

Local Open Scope string_scope.
Local Open Scope Z_scope.

(** ** Python values *)

(** An exception object: its class name and what [str(e)] returns. *)
Inductive PyExn : Type :=
| PyExc (cls : string) (msg : string).

Definition str (e : PyExn) : string :=
  match e with PyExc _ msg => msg end.

(** The result of running a piece of Python: a value, or a raised
    exception of class [Exception] or below. *)
Inductive outcome (A : Type) : Type :=
| Ret (a : A)
| Raise (e : PyExn).
Arguments Ret {A} a.
Arguments Raise {A} e.

(** A Python [float] is an IEEE 754 binary64 number. *)
Abbreviation pyfloat := PrimFloat.float.

(** Values that [json.dumps] serialises; the [result] column stores them. *)
#[warnings="-register-all"]
Inductive json : Type :=
| JBool (b : bool)
| JInt (n : Z)
| JFloat (x : pyfloat)
| JStr (s : string)
| JList (l : list json)
| JDict (kv : list (string * json)).

(** [s[:n]] on a [str]: the first [n] characters, or all of [s] when it has
    fewer. *)
Fixpoint str_slice_to (n : nat) (s : string) : string :=
  match n, s with
  | S n', String c s' => String c (str_slice_to n' s')
  | _, _ => EmptyString
  end.

(** ** The [ocr_jobs] table *)

Inductive Status : Type := queued | processing | completed | failed.

Definition Status_eqb (a b : Status) : bool :=
  match a, b with
  | queued, queued | processing, processing
  | completed, completed | failed, failed => true
  | _, _ => false
  end.

(** One row of [ocr_jobs], without its primary key [id] (the key of the
    table below).  The columns are the ones the SQL statements of [db.py]
    name; a nullable column is an [option]. *)
Record Row : Type := mkRow {
  user_id : string;
  image_url : string;
  image_hash : string;
  status : Status;
  retry_count : option Z;
  result : option json;
  processing_time : option Z;
  error_message : option string;
  created_at : Z;
  completed_at : option Z
}.

(** The table: rows by primary key [id]. *)
Abbreviation table := (gmap string Row).

(** The dataclass [OCRJobRow]. *)
Record OCRJobRow : Type := mkOCRJobRow {
  id : string;
  job_user_id : string;
  job_image_url : string;
  job_image_hash : string;
  job_status : Status;
  job_retry_count : Z
}.

(** Column assignments of the [UPDATE] statements. *)
Definition set_status (s : Status) (r : Row) : Row :=
  mkRow (user_id r) (image_url r) (image_hash r) s (retry_count r)
        (result r) (processing_time r) (error_message r) (created_at r)
        (completed_at r).

Definition set_retry_count (n : option Z) (r : Row) : Row :=
  mkRow (user_id r) (image_url r) (image_hash r) (status r) n
        (result r) (processing_time r) (error_message r) (created_at r)
        (completed_at r).

Definition set_completed (res : json) (ms now : Z) (r : Row) : Row :=
  mkRow (user_id r) (image_url r) (image_hash r) completed (retry_count r)
        (Some res) (Some ms) (error_message r) (created_at r) (Some now).

Definition set_failed (msg : string) (r : Row) : Row :=
  mkRow (user_id r) (image_url r) (image_hash r) failed (retry_count r)
        (result r) (processing_time r) (Some msg) (created_at r)
        (completed_at r).

(** SQL [COALESCE(x, d)]. *)
Definition COALESCE {A : Type} (x : option A) (d : A) : A :=
  match x with Some v => v | None => d end.

(** ** The world outside the interpreter *)

(** The calls that are handed a duration, with that duration in
    milliseconds (the code divides by [1000.0] to hand seconds to the
    library): the download with its timeout, and [time.sleep].  The store
    and the vision service block the worker as well; their calls take no
    duration and are not recorded here. *)
Inductive Event : Type :=
| EvFetch (url : string) (timeout_ms : Z)
| EvSleep (ms : Z).

Record World : Type := mkWorld {
  (** the table as committed: what survives [conn.rollback()] *)
  committed : table;
  (** the table as seen inside the open transaction of [conn] *)
  working : table;
  (** what the next round trips to the server ([conn.execute],
      [conn.commit], [conn.rollback]) do: [Some e] raises [e]; an exhausted
      script never raises *)
  faults : list (option PyExn);
  (** successive values of [int(time.time() * 1000)]; an exhausted script
      reads 0 *)
  clock : list Z;
  (** the value of [NOW()] on the server *)
  db_now : Z;
  (** what the next [requests.get] + [raise_for_status] do *)
  net : list (outcome (list Byte.byte));
  (** what the next calls of [run_document_text_detection] do *)
  vision : list (outcome (string * pyfloat));
  (** the downloads and sleeps made so far, oldest first *)
  events : list Event
}.

Definition with_tables (c t : table) (w : World) : World :=
  mkWorld c t (faults w) (clock w) (db_now w) (net w) (vision w)
          (events w).

Definition with_working (t : table) (w : World) : World :=
  with_tables (committed w) t w.

Definition with_faults (f : list (option PyExn)) (w : World) : World :=
  mkWorld (committed w) (working w) f (clock w) (db_now w) (net w)
          (vision w) (events w).

Definition with_clock (c : list Z) (w : World) : World :=
  mkWorld (committed w) (working w) (faults w) c (db_now w) (net w)
          (vision w) (events w).

Definition with_net (n : list (outcome (list Byte.byte))) (w : World) : World :=
  mkWorld (committed w) (working w) (faults w) (clock w) (db_now w) n
          (vision w) (events w).

Definition with_vision (v : list (outcome (string * pyfloat))) (w : World)
  : World :=
  mkWorld (committed w) (working w) (faults w) (clock w) (db_now w) (net w)
          v (events w).

Definition log_event (e : Event) (w : World) : World :=
  mkWorld (committed w) (working w) (faults w) (clock w) (db_now w) (net w)
          (vision w) (events w ++ [e]).

(** ** The monad of Python code *)

Definition M (A : Type) : Type := World -> outcome A * World.

Definition ret {A : Type} (a : A) : M A := fun w => (Ret a, w).

Definition raise {A : Type} (e : PyExn) : M A := fun w => (Raise e, w).

Definition bind {A B : Type} (m : M A) (k : A -> M B) : M B :=
  fun w =>
    match m w with
    | (Ret a, w') => k a w'
    | (Raise e, w') => (Raise e, w')
    end.

(** [try: body / except Exception as e: handler e]. *)
Definition try_except {A : Type} (body : M A) (handler : PyExn -> M A) : M A :=
  fun w =>
    match body w with
    | (Ret a, w') => (Ret a, w')
    | (Raise e, w') => handler e w'
    end.

Declare Scope py_scope.
Delimit Scope py_scope with py.
Notation "x <- m ;; k" := (bind m (fun x => k))
  (at level 100, m at next level, k at level 200, right associativity,
   only parsing) : py_scope.
Notation "m ;; k" := (bind m (fun _ => k))
  (at level 100, k at level 200, right associativity, only parsing)
  : py_scope.
Local Open Scope py_scope.

(** ** psycopg: the connection *)

(** Every call that reaches the server consumes one entry of [faults]. *)
Definition storage_call : M unit :=
  fun w =>
    match faults w with
    | Some e :: rest => (Raise e, with_faults rest w)
    | None :: rest => (Ret tt, with_faults rest w)
    | [] => (Ret tt, w)
    end.

(** [conn.commit()]: the open transaction becomes the committed state. *)
Definition commit : M unit :=
  storage_call ;;
  (fun w => (Ret tt, with_tables (working w) (working w) w)).

(** [conn.rollback()]: a round trip as well; when it is served the open
    transaction is discarded, when it raises (a lost connection) nothing
    is. *)
Definition rollback : M unit :=
  storage_call ;;
  (fun w => (Ret tt, with_working (committed w) w)).

Definition NOW : M Z := fun w => (Ret (db_now w), w).

(** [conn.execute(stmt).fetchone()]: a statement maps the table to the new
    table and to the first row it returns, if any; a statement that raises
    changes nothing. *)
Definition execute {A : Type} (stmt : table -> table * option A)
  : M (option A) :=
  storage_call ;;
  (fun w => let '(t', row) := stmt (working w) in
            (Ret row, with_working t' w)).

(** [int(time.time() * 1000)]. *)
Definition time_ms : M Z :=
  fun w =>
    match clock w with
    | t :: rest => (Ret t, with_clock rest w)
    | [] => (Ret 0, w)
    end.

(** [time.sleep(ms / 1000.0)]. *)
Definition sleep (ms : Z) : M unit :=
  fun w => (Ret tt, log_event (EvSleep ms) w).

(** [conn.poll()].  The [Connection] of psycopg 3 (the module imported
    as [psycopg]) has no attribute [poll]: the lookup raises before
    anything is sent. *)
Definition conn_poll : M unit :=
  raise (PyExc "AttributeError"
               "'Connection' object has no attribute 'poll'").

(** [conn.notifies.get(timeout=timeout_ms / 1000.0)].  In psycopg 3
    [conn.notifies] is a method of the connection, and a method has no
    attribute [get]: the lookup raises before the timeout is handed to
    anything, so no wait takes place. *)
Definition notifies_get (timeout_ms : Z) : M unit :=
  raise (PyExc "AttributeError" "'method' object has no attribute 'get'").

(** ** [ocr.py]: the two collaborators

    The module at hand is [ocr_worker/ocr.py].  [kiro_ocr_worker/main.py]
    imports the module of the same name of its own package; the two
    functions below stand for it there. *)

Definition fetch_image_bytes (url : string) (timeout_ms : Z)
  : M (list Byte.byte) :=
  let timeout := Z.max timeout_ms 1000 in
  fun w =>
    let w1 := log_event (EvFetch url timeout) w in
    match net w1 with
    | o :: rest => (o, with_net rest w1)
    | [] => (Raise (PyExc "ConnectionError" "no response"), w1)
    end.

(** The vision call is opaque: text and confidence, or an exception. *)
Definition run_document_text_detection (image_bytes : list Byte.byte)
  : M (string * pyfloat) :=
  fun w =>
    match vision w with
    | o :: rest => (o, with_vision rest w)
    | [] => (Raise (PyExc "RuntimeError" "no response"), w)
    end.

(** ** [db.py]: the job store *)

(** [SELECT id FROM ocr_jobs WHERE status = 'queued' ORDER BY created_at ASC
    ... LIMIT 1].  Among rows of equal [created_at] SQL leaves the choice
    open; here the first in the enumeration of the table wins. *)
Definition older_queued (kv : string * Row) (best : option (string * Row))
  : option (string * Row) :=
  if Status_eqb (status kv.2) queued then
    match best with
    | Some b => if created_at kv.2 <=? created_at b.2 then Some kv else Some b
    | None => Some kv
    end
  else best.

Definition oldest_queued (t : table) : option (string * Row) :=
  foldr older_queued None (map_to_list t).

(** Python's [x or d] on integers. *)
Definition py_or (x d : Z) : Z := if x =? 0 then d else x.

(** The [UPDATE ... WHERE id = (SELECT ...) RETURNING id, user_id, image_url,
    image_hash, status, COALESCE(retry_count, 0)] of [try_claim_queued_job]. *)
Definition claim_statement (t : table)
  : table * option (string * string * string * string * Status * Z) :=
  match oldest_queued t with
  | None => (t, None)
  | Some (jid, _) =>
      let t' := alter (set_status processing) jid t in
      (t', (fun r => (jid, user_id r, image_url r, image_hash r, status r,
                      COALESCE (retry_count r) 0)) <$> t' !! jid)
  end.

Definition try_claim_queued_job : M (option OCRJobRow) :=
  row <- execute claim_statement ;;
  match row with
  | None => ret None
  | Some (r0, r1, r2, r3, r4, r5) =>
      ret (Some (mkOCRJobRow r0 r1 r2 r3 r4 (py_or r5 0)))
  end.

(** The dict that [mark_completed] serialises. *)
Definition result_envelope (ocr_text : string) (processing_ms : Z)
           (confidence : pyfloat) : json :=
  JDict [ ("ocrText", JStr ocr_text);
          ("extractedItems", JList []);
          ("confidence", JFloat confidence);
          ("flaggedFields", JList []);
          ("processingTime", JInt processing_ms);
          ("aiParsingUsed", JBool false) ].

Definition mark_completed (job_id ocr_text : string) (processing_ms : Z)
           (confidence : pyfloat) : M unit :=
  let result := result_envelope ocr_text processing_ms confidence in
  now <- NOW ;;
  execute (A := unit)
    (fun t => (alter (set_completed result processing_ms now) job_id t, None)) ;;
  ret tt.

Definition mark_failed (job_id error_message : string) : M unit :=
  execute (A := unit)
    (fun t => (alter (set_failed (str_slice_to 2000 error_message)) job_id t,
               None)) ;;
  ret tt.

(** [UPDATE ... SET retry_count = COALESCE(retry_count, 0) + 1 WHERE id = %s
    RETURNING retry_count]. *)
Definition increment_statement (job_id : string) (t : table)
  : table * option (option Z) :=
  let t' := alter (fun r => set_retry_count
                              (Some (COALESCE (retry_count r) 0 + 1)) r)
                  job_id t in
  (t', retry_count <$> t' !! job_id).

Definition increment_retry (job_id : string) : M Z :=
  row <- execute (increment_statement job_id) ;;
  ret (match row with
       | Some (Some n) => n
       | _ => 0
       end).

Definition requeue_job (job_id : string) : M unit :=
  execute (A := unit) (fun t => (alter (set_status queued) job_id t, None)) ;;
  ret tt.

(** ** [config.py]: the environment *)

(** The process environment, [os.environ]. *)
Abbreviation environ := (gmap string string).

(** [os.getenv(key, default)]. *)
Definition getenv (env : environ) (key default : string) : string :=
  match env !! key with Some v => v | None => default end.

(** [a or b] where [a] is [os.getenv(key)]: [None] and the empty string are
    falsy. *)
Definition str_or (a : option string) (b : string) : string :=
  match a with
  | Some EmptyString | None => b
  | Some v => v
  end.

(** [str(n)] on an [int]. *)
Definition str_of_int (n : Z) : string := NilZero.string_of_int (Z.to_int n).

(** How [int(s)] reads ASCII text: surrounding white space is dropped,
    then an optional sign and decimal digits, where single underscores may
    separate digits.  [None] stands for [ValueError].  Python's [int]
    agrees with [py_int] on ASCII text of at most 4300 digits; beyond that
    it also accepts the digits and white space of other scripts, and
    rejects longer numerals. *)
Definition is_space (c : ascii) : bool :=
  let n := nat_of_ascii c in
  ((9 <=? n) && (n <=? 13) || (n =? 32))%nat.

Fixpoint lstrip (s : string) : string :=
  match s with
  | String c s' => if is_space c then lstrip s' else s
  | EmptyString => s
  end.

Fixpoint rstrip (s : string) : string :=
  match s with
  | String c s' =>
      match rstrip s' with
      | EmptyString => if is_space c then EmptyString else String c EmptyString
      | r => String c r
      end
  | EmptyString => s
  end.

Definition digit_value (c : ascii) : option Z :=
  let n := nat_of_ascii c in
  if ((48 <=? n) && (n <=? 57))%nat then Some (Z.of_nat n - 48) else None.

Fixpoint int_digits (acc : Z) (after_digit : bool) (s : string) : option Z :=
  match s with
  | EmptyString => if after_digit then Some acc else None
  | String c s' =>
      if Ascii.eqb c "_" then
        if after_digit then int_digits acc false s' else None
      else
        match digit_value c with
        | Some d => int_digits (10 * acc + d) true s'
        | None => None
        end
  end.

Definition py_int (s : string) : option Z :=
  match lstrip (rstrip s) with
  | String c r =>
      if Ascii.eqb c "+" then int_digits 0 false r
      else if Ascii.eqb c "-" then Z.opp <$> int_digits 0 false r
      else int_digits 0 false (String c r)
  | EmptyString => None
  end.

(** [_get_int], the same in both [config.py].  The builtin [int] is not
    part of the program and what it accepts depends on the interpreter, so
    [_get_int] and [load_config] take it as the parameter [int_]: any
    function from [str] to an integer or [ValueError], here [None]. *)
Definition _get_int (int_ : string -> option Z) (env : environ)
           (env_key : string) (default : Z) : Z :=
  match int_ (getenv env env_key (str_of_int default)) with
  | Some n => n
  | None => default
  end.

(** ** The worker loop of [main.py]: [run]

    [run] never returns by itself; it is cut into steps.  While draining,
    a step is one call of [process_once]; while waiting, a step is one call
    of the wake channel [wait].  An exception that reaches [run] ends the
    process.  [KeyboardInterrupt] is not modelled. *)
Inductive Phase : Type :=
| Draining
| Waiting
| Crashed (e : PyExn).

Definition loop_step (drain : M bool) (wait : M unit) (st : Phase * World)
  : Phase * World :=
  match st with
  | (Draining, w) =>
      match drain w with
      | (Ret true, w') => (Draining, w')
      | (Ret false, w') => (Waiting, w')
      | (Raise e, w') => (Crashed e, w')
      end
  | (Waiting, w) =>
      match wait w with
      | (Ret _, w') => (Draining, w')
      | (Raise e, w') => (Crashed e, w')
      end
  | (Crashed e, w) => (Crashed e, w)
  end.

Fixpoint loop_steps (drain : M bool) (wait : M unit) (n : nat)
         (st : Phase * World) : Phase * World :=
  match n with
  | O => st
  | S n' => loop_steps drain wait n' (loop_step drain wait st)
  end.

(** ** The package [kiro_ocr_worker] *)
Module Kiro.

Record WorkerConfig : Type := mkWorkerConfig {
  database_url : string;
  poll_interval_ms : Z;
  max_retries : Z;
  processing_timeout_ms : Z
}.

Definition load_config (int_ : string -> option Z) (env : environ)
  : outcome WorkerConfig :=
  let database_url := getenv env "DATABASE_URL" EmptyString in
  match database_url with
  | EmptyString =>
      Raise (PyExc "RuntimeError" "DATABASE_URL is required for OCR worker")
  | _ =>
      Ret (mkWorkerConfig
             database_url
             (_get_int int_ env "WORKER_POLL_INTERVAL_MS" 5000)
             (_get_int int_ env "WORKER_MAX_RETRIES" 3)
             (_get_int int_ env "WORKER_PROCESSING_TIMEOUT_MS" 60000))
  end.

(** [db.listen_for_jobs(conn, poll_interval_ms)]. *)
Definition listen_for_jobs (poll_interval_ms : Z) : M unit :=
  execute (A := unit) (fun t => (t, None)) ;;
  let timeout := Z.max poll_interval_ms 1000 in
  conn_poll ;;
  try_except (notifies_get timeout) (fun _ => ret tt).

(** The body of the outer [try] of [process_once]. *)
Definition process_once_try (cfg : WorkerConfig) (job : OCRJobRow)
           (start : Z) : M unit :=
  img <- fetch_image_bytes (job_image_url job) (processing_timeout_ms cfg) ;;
  tc <- run_document_text_detection img ;;
  let '(text, conf) := tc in
  now <- time_ms ;;
  let elapsed := now - start in
  mark_completed (id job) text elapsed conf ;;
  commit.

(** The body of the inner [try]: the retry decision. *)
Definition retry_decision (cfg : WorkerConfig) (job : OCRJobRow)
           (e : PyExn) : M unit :=
  new_count <- increment_retry (id job) ;;
  (if new_count >=? max_retries cfg
   then mark_failed (id job) (str e)
   else requeue_job (id job)) ;;
  commit.

(** The outer [except Exception as e]. *)
Definition process_once_except (cfg : WorkerConfig) (job : OCRJobRow)
           (e : PyExn) : M unit :=
  rollback ;;
  try_except (retry_decision cfg job e) (fun _ => rollback).

Definition process_once (cfg : WorkerConfig) : M bool :=
  job <- try_claim_queued_job ;;
  match job with
  | None => ret false
  | Some job =>
      start <- time_ms ;;
      try_except (process_once_try cfg job start)
                 (process_once_except cfg job) ;;
      ret true
  end.

(** The processing attempt of a claimed job, lines 12 to 18 of
    [process_once]: from the reading of the start time to the commit. *)
Definition attempt (cfg : WorkerConfig) (job : OCRJobRow) : M unit :=
  start <- time_ms ;;
  process_once_try cfg job start.

(** One step, and [n] steps, of the loop of [run]. *)
Definition run_step (cfg : WorkerConfig) : Phase * World -> Phase * World :=
  loop_step (process_once cfg) (listen_for_jobs (poll_interval_ms cfg)).

Definition run_steps (cfg : WorkerConfig) (n : nat)
  : Phase * World -> Phase * World :=
  loop_steps (process_once cfg) (listen_for_jobs (poll_interval_ms cfg)) n.

End Kiro.

(** ** The package [ocr_worker] *)
Module OcrWorker.

Record WorkerConfig : Type := mkWorkerConfig {
  database_url : string;
  poll_interval_ms : Z;
  max_retries : Z;
  processing_timeout_ms : Z;
  use_notify : bool
}.

(** [os.getenv("WORKER_USE_NOTIFY", "0") in ("1", "true", "TRUE", "yes",
    "YES")]. *)
Definition notify_flag (env : environ) : bool :=
  let v := getenv env "WORKER_USE_NOTIFY" "0" in
  bool_decide (v ∈ ["1"; "true"; "TRUE"; "yes"; "YES"]).

Definition load_config (int_ : string -> option Z) (env : environ)
  : outcome WorkerConfig :=
  let database_url :=
    str_or (env !! "DATABASE_URL")
      (str_or (env !! "SUPABASE_DB_URL")
         (str_or (env !! "POSTGRES_URL") EmptyString)) in
  match database_url with
  | EmptyString =>
      Raise (PyExc "RuntimeError" "DATABASE_URL is required for OCR worker")
  | _ =>
      Ret (mkWorkerConfig
             database_url
             (_get_int int_ env "WORKER_POLL_INTERVAL_MS" 5000)
             (_get_int int_ env "WORKER_MAX_RETRIES" 3)
             (_get_int int_ env "WORKER_PROCESSING_TIMEOUT_MS" 60000)
             (notify_flag env))
  end.

(** [db.listen_for_jobs(conn, poll_interval_ms, use_notify)].  The inner
    computation says whether the function has already returned. *)
Definition listen_for_jobs (poll_interval_ms : Z) (use_notify : bool)
  : M unit :=
  returned <-
    (if use_notify then
       try_except
         (execute (A := unit) (fun t => (t, None)) ;;
          let timeout := Z.max poll_interval_ms 250 in
          notifies_get timeout ;;
          ret true)
         (fun _ => ret false)
     else ret false) ;;
  if (returned : bool) then ret tt
  else sleep (Z.max poll_interval_ms 250).

End OcrWorker.

(** ** [setup-credentials.py] *)


(** Truth value of the result of [os.getenv(key)]. *)
Definition truthy (v : option string) : bool :=
  match v with
  | Some (String _ _) => true
  | _ => false
  end.




(** ** More specification vocabulary *)

(** The next storage call does not raise. *)
Definition next_served (w : World) : bool :=
  match faults w with
  | Some _ :: _ => false
  | _ => true
  end.

(** No storage call raises from now on. *)
Definition no_faults (w : World) : bool :=
  forallb (fun o => match o with None => true | Some _ => false end)
          (faults w).

(** Every download fails from now on. *)
Definition net_down (w : World) : bool :=
  forallb (fun o => match o with
                    | Raise _ => true
                    | Ret _ => false
                    end)
          (net w).

(** [m] never changes the component [f] of the world. *)
Definition stable {X A : Type} (f : World -> X) (m : M A) : Prop :=
  forall w, f (m w).2 = f w.

(** [retry_count = COALESCE(retry_count, 0) + 1]. *)
Definition bump_retry (r : Row) : Row :=
  set_retry_count (Some (COALESCE (retry_count r) 0 + 1)) r.

(** The rows a cycle of [process_once] can commit for the job it claimed
    as row [r0], when it commits anything. *)
Inductive cycle_outcome (cfg : Kiro.WorkerConfig) (now : Z) (r0 : Row)
  : Row -> Prop :=
| outcome_completed (text : string) (conf : pyfloat) (ms : Z) :
    cycle_outcome cfg now r0
      (set_completed (result_envelope text ms conf) ms now r0)
| outcome_requeued :
    COALESCE (retry_count r0) 0 + 1 < Kiro.max_retries cfg ->
    cycle_outcome cfg now r0 (set_status queued (bump_retry r0))
| outcome_failed (e : PyExn) :
    Kiro.max_retries cfg <= COALESCE (retry_count r0) 0 + 1 ->
    cycle_outcome cfg now r0
      (set_failed (str_slice_to 2000 (str e)) (bump_retry r0)).

(** What the worker may do to a row over time: the columns it never
    writes stay, and the retry counter does not go down. *)
Definition row_step (r r' : Row) : Prop :=
  user_id r' = user_id r /\
  image_url r' = image_url r /\
  image_hash r' = image_hash r /\
  created_at r' = created_at r /\
  COALESCE (retry_count r) 0 <= COALESCE (retry_count r') 0.

(** The same ids, and each row a [row_step] of the old one. *)
Definition table_step (t t' : table) : Prop :=
  forall j,
    match t !! j, t' !! j with
    | Some r, Some r' => row_step r r'
    | None, None => True
    | _, _ => False
    end.

(** No row of [t'] is [processing] unless it is that row of [t]. *)
Definition no_new_processing (t t' : table) : Prop :=
  forall j r', t' !! j = Some r' -> status r' = processing -> t !! j = Some r'.

(** Job [j] is queued with retry counter [c], null counting as zero, and
    is the only queued job. *)
Definition only_queued (j : string) (c : Z) (t : table) : bool :=
  match t !! j with
  | Some r => Status_eqb (status r) queued && (COALESCE (retry_count r) 0 =? c)
  | None => false
  end &&
  forallb (fun kv : string * Row =>
             String.eqb kv.1 j || negb (Status_eqb (status kv.2) queued))
          (map_to_list t).

(** How many rows are queued. *)
Definition queued_count (t : table) : nat :=
  length (filter (fun kv : string * Row =>
                    Status_eqb (status kv.2) queued = true)
                 (map_to_list t)).

(** The same as a proposition. *)
Definition sole_queued (j : string) (c : Z) (t : table) : Prop :=
  (exists r, t !! j = Some r /\ status r = queued /\
             COALESCE (retry_count r) 0 = c) /\
  forall j' r', j' <> j -> t !! j' = Some r' -> status r' <> queued.

(** The store serves every call and every download fails, from now on. *)
Definition quiet (w : World) : Prop :=
  no_faults w = true /\ net_down w = true.

(** ** Specification vocabulary *)

(** Hoare triples over [M]: from a world where [P] holds, [m] ends with an
    outcome and a world that [Q] relates. *)
Definition hoare {A : Type} (P : World -> Prop) (m : M A)
           (Q : outcome A -> World -> Prop) : Prop :=
  forall w, P w -> Q (m w).1 (m w).2.

(** Row [jid] is [r] in both tables. *)
Definition keeps (jid : string) (r : Row) (w : World) : Prop :=
  committed w !! jid = Some r /\ working w !! jid = Some r.

(** [m] leaves row [jid] as it is, whatever it returns or raises. *)
Definition frames {A : Type} (jid : string) (r : Row) (m : M A) : Prop :=
  hoare (keeps jid r) m (fun _ => keeps jid r).

(** Between cycles the session has no uncommitted change. *)
Definition clean (w : World) : Prop := working w = committed w.

(** The same for a state of the loop: it holds as long as the worker has
    not ended. *)
Definition clean_while_running (st : Phase * World) : Prop :=
  match st.1 with
  | Crashed _ => True
  | _ => clean st.2
  end.

(** The downloads and sleeps made between world [w] and the later world
    [w']. *)
Definition new_events (w w' : World) : list Event :=
  drop (length (events w)) (events w').

(** ** Sample data *)

Definition sample_row (st : Status) (rc : option Z) (ts : Z) : Row :=
  mkRow "user-1" "https://img.test/menu.png" "sha256:ab" st rc
        None None None ts None.

(** Three jobs: [job-b] is the oldest queued one. *)
Definition sample_table (rc_b : option Z) : table :=
  <["job-a" := sample_row queued None 5]>
    (<["job-b" := sample_row queued rc_b 3]>
       (<["job-c" := sample_row failed (Some 3) 1]> ∅)).

Definition sample_world (t : table) : World :=
  mkWorld t t [] [] 0 [] [] [].

Definition sample_cfg : Kiro.WorkerConfig :=
  Kiro.mkWorkerConfig "postgresql://u:p@h:5432/db" 5000 3 60000.

Definition http_404 : PyExn := PyExc "HTTPError" "404 Client Error".

Definition db_down : PyExn :=
  PyExc "OperationalError" "server closed the connection unexpectedly".

(** The download fails; the store answers. *)
Definition world_fetch_fails (rc_b : option Z) : World :=
  with_net [Raise http_404] (sample_world (sample_table rc_b)).

(** The download fails; the claim and the rollback of the attempt are
    served, the first statement of the retry decision is not, and the
    rollback after it is served again. *)
Definition world_decision_fails : World :=
  with_faults [None; None; Some db_down] (world_fetch_fails (Some 1)).

(** The download fails, the claim is served, and the rollback of the
    attempt is not. *)
Definition world_rollback_fails : World :=
  with_faults [None; Some db_down] (world_fetch_fails (Some 1)).

(** The same, but the connection is lost for good: the rollback after the
    failed decision raises too. *)
Definition world_connection_lost : World :=
  with_faults [None; None; Some db_down; Some db_down]
    (world_fetch_fails (Some 1)).

(** The download and the text detection succeed; the clock reads
    [t_start] and then [t_end]. *)
Definition world_success (t_start t_end : Z) : World :=
  with_clock [t_start; t_end]
    (with_vision [Ret ("Soup 4.50", 0.5%float)]
       (with_net [Ret []] (sample_world (sample_table None)))).

(** The worlds a cycle goes through from [w]: after the claim, after the
    attempt on [job], after the rollback of the attempt, after the retry
    decision for exception [e]. *)
Definition claimed (w : World) : World := (try_claim_queued_job w).2.

Definition attempted (w : World) (job : OCRJobRow) : World :=
  (Kiro.attempt sample_cfg job (claimed w)).2.

Definition attempted_rollback (w : World) (job : OCRJobRow) : World :=
  (rollback (attempted w job)).2.

Definition decided (w : World) (job : OCRJobRow) (e : PyExn) : World :=
  (Kiro.retry_decision sample_cfg job e (rollback (attempted w job)).2).2.

(** The environment of [test_load_config_defaults], and one with a retry
    limit that is not a number. *)
Definition test_env : environ :=
  <["DATABASE_URL" := "postgresql://u:p@h:5432/db"]> ∅.

Definition bad_retries_env : environ :=
  <["WORKER_MAX_RETRIES" := "three"]> test_env.

(** A diagnostic of 2500 characters. *)
Definition long_message : string :=
  string_of_list_ascii (repeat "x"%char 2500).

Definition sample_job (rc : Z) : OCRJobRow :=
  mkOCRJobRow "job-b" "user-1" "https://img.test/menu.png" "sha256:ab"
              processing rc.

(** From a quiet world [m] returns, and leaves a quiet world. *)
Definition returns_quietly {A : Type} (m : M A) : Prop :=
  hoare quiet m (fun o w => quiet w /\ exists a, o = Ret a).

(** One job that is queued beside a failed one: a table where every claim
    takes [job-b]. *)
Definition lonely_table : table :=
  <["job-b" := sample_row queued None 3]>
    (<["job-c" := sample_row failed (Some 3) 1]> ∅).

(** A job committed as [processing], by someone else. *)
Definition stuck_table : table :=
  <["job-p" := sample_row processing (Some 1) 2]> (sample_table None).



(** * Properties *)

(** ** Running monadic code *)

Lemma bind_inv {A B : Type} (m : M A) (k : A -> M B) w o w' :
  bind m k w = (o, w') ->
  (exists a w1, m w = (Ret a, w1) /\ k a w1 = (o, w')) \/
  (exists e, m w = (Raise e, w') /\ o = Raise e).
Proof.
  unfold bind. destruct (m w) as [[a|e] w1]; intros H.
  - left. eauto.
  - right. inversion H; subst. eauto.
Qed.

Lemma bind_Ret_inv {A B : Type} (m : M A) (k : A -> M B) w b w' :
  bind m k w = (Ret b, w') ->
  exists a w1, m w = (Ret a, w1) /\ k a w1 = (Ret b, w').
Proof.
  intros H. apply bind_inv in H as [H | (e & _ & H)]; [done | discriminate].
Qed.

Lemma bind_Ret {A B : Type} (m : M A) (k : A -> M B) w a w1 :
  m w = (Ret a, w1) -> bind m k w = k a w1.
Proof. intros H. unfold bind. by rewrite H. Qed.

Lemma bind_Raise {A B : Type} (m : M A) (k : A -> M B) w e w1 :
  m w = (Raise e, w1) -> bind m k w = (Raise e, w1).
Proof. intros H. unfold bind. by rewrite H. Qed.

Lemma try_except_inv {A : Type} (body : M A) (h : PyExn -> M A) w o w' :
  try_except body h w = (o, w') ->
  (exists a, body w = (Ret a, w') /\ o = Ret a) \/
  (exists e w1, body w = (Raise e, w1) /\ h e w1 = (o, w')).
Proof.
  unfold try_except. destruct (body w) as [[a|e] w1]; intros H.
  - left. inversion H; subst. eauto.
  - right. eauto.
Qed.

(** ** The connection: what each call does to the two tables *)

Lemma storage_call_tables w o w' :
  storage_call w = (o, w') ->
  committed w' = committed w /\ working w' = working w.
Proof.
  unfold storage_call. destruct (faults w) as [|[e|] rest]; intros H;
    inversion H; subst; done.
Qed.

Lemma storage_call_Raise w e w' :
  storage_call w = (Raise e, w') -> head (faults w) = Some (Some e).
Proof.
  unfold storage_call. destruct (faults w) as [|[e'|] rest]; intros H;
    inversion H; subst; done.
Qed.

Lemma execute_Ret {A : Type} (stmt : table -> table * option A) w row w' :
  execute stmt w = (Ret row, w') ->
  committed w' = committed w /\
  working w' = (stmt (working w)).1 /\
  row = (stmt (working w)).2.
Proof.
  intros H. apply bind_Ret_inv in H as ([] & w1 & H1 & H2).
  apply storage_call_tables in H1 as [Hc Hw].
  rewrite <- Hc, <- Hw. destruct (stmt (working w1)) as [t' r] eqn:E.
  inversion H2; subst. done.
Qed.

Lemma execute_Raise {A : Type} (stmt : table -> table * option A) w e w' :
  execute stmt w = (Raise e, w') ->
  committed w' = committed w /\ working w' = working w.
Proof.
  intros H. apply bind_inv in H as [([] & w1 & H1 & H2) | (e' & H1 & _)].
  - destruct (stmt (working w1)); discriminate.
  - by apply storage_call_tables in H1.
Qed.

Lemma commit_Ret w w' :
  commit w = (Ret tt, w') ->
  committed w' = working w /\ working w' = working w.
Proof.
  intros H. apply bind_Ret_inv in H as ([] & w1 & H1 & H2).
  apply storage_call_tables in H1 as [_ Hw]. inversion H2; subst.
  by rewrite <- Hw.
Qed.

Lemma commit_Raise w e w' :
  commit w = (Raise e, w') ->
  committed w' = committed w /\ working w' = working w.
Proof.
  intros H. apply bind_inv in H as [([] & w1 & H1 & H2) | (e' & H1 & _)].
  - discriminate.
  - by apply storage_call_tables in H1.
Qed.

Lemma rollback_Ret w w' :
  rollback w = (Ret tt, w') ->
  committed w' = committed w /\ working w' = committed w.
Proof.
  intros H. apply bind_Ret_inv in H as ([] & w1 & H1 & H2).
  apply storage_call_tables in H1 as [Hc _]. inversion H2; subst.
  by rewrite <- Hc.
Qed.

Lemma rollback_Raise w e w' :
  rollback w = (Raise e, w') ->
  committed w' = committed w /\ working w' = working w.
Proof.
  intros H. apply bind_inv in H as [([] & w1 & H1 & H2) | (e' & H1 & _)].
  - discriminate.
  - by apply storage_call_tables in H1.
Qed.

(** A rollback never touches what is committed. *)
Lemma rollback_committed w : committed (rollback w).2 = committed w.
Proof.
  destruct (rollback w) as [[[]|e] w'] eqn:E; simpl.
  - by apply rollback_Ret in E as [? _].
  - by apply rollback_Raise in E as [? _].
Qed.

(** A rollback that is served leaves the session as committed. *)
Lemma rollback_served w :
  (rollback w).1 = Ret tt -> working (rollback w).2 = committed w.
Proof.
  destruct (rollback w) as [[[]|e] w'] eqn:E; simpl; [|discriminate].
  intros _. by apply rollback_Ret in E as [_ ?].
Qed.

(** ** Strings *)

Lemma str_slice_to_length n s :
  String.length (str_slice_to n s) = Nat.min n (String.length s).
Proof.
  revert s. induction n as [|n IH]; intros [|c s]; simpl; try done.
  by rewrite IH.
Qed.

Lemma str_slice_to_short n s :
  (String.length s <= n)%nat -> str_slice_to n s = s.
Proof.
  revert s. induction n as [|n IH]; intros [|c s]; simpl; intros H;
    try done; try lia.
  rewrite IH; [done | lia].
Qed.

Lemma str_slice_to_prefix n s :
  exists rest, s = String.append (str_slice_to n s) rest.
Proof.
  revert s. induction n as [|n IH]; intros [|c s]; simpl; eauto.
  destruct (IH s) as [rest Hrest]. exists rest.
  rewrite Hrest at 1. reflexivity.
Qed.

(** ** The oldest queued row *)

Lemma Status_eqb_eq a b : Status_eqb a b = true <-> a = b.
Proof. destruct a, b; simpl; split; intros H; done. Qed.

Lemma foldr_older_queued_Some (l : list (string * Row)) kv :
  foldr older_queued None l = Some kv ->
  kv ∈ l /\ status kv.2 = queued /\
  forall kv', kv' ∈ l -> status kv'.2 = queued ->
              created_at kv.2 <= created_at kv'.2.
Proof.
  revert kv. induction l as [|x l IH]; simpl; intros kv H; [done|].
  unfold older_queued in H at 1.
  destruct (Status_eqb (status x.2) queued) eqn:Hq.
  - apply Status_eqb_eq in Hq.
    destruct (foldr older_queued None l) as [b|] eqn:Hb.
    + destruct (IH b eq_refl) as (Hin & Hbq & Hmin).
      destruct (created_at x.2 <=? created_at b.2) eqn:Hle;
        inversion H; subst; clear H.
      * apply Z.leb_le in Hle. split; [by left|]. split; [done|].
        intros kv' Hkv' Hq'. apply elem_of_cons in Hkv' as [->|Hkv'];
          [lia|]. specialize (Hmin kv' Hkv' Hq'). lia.
      * apply Z.leb_gt in Hle. split; [by right|]. split; [done|].
        intros kv' Hkv' Hq'. apply elem_of_cons in Hkv' as [->|Hkv'];
          [lia|]. by apply Hmin.
    + inversion H; subst; clear H. split; [by left|]. split; [done|].
      intros kv' Hkv' Hq'. apply elem_of_cons in Hkv' as [->|Hkv']; [lia|].
      exfalso. clear IH. induction l as [|y l IHl]; [by inversion Hkv'|].
      simpl in Hb. unfold older_queued in Hb at 1.
      apply elem_of_cons in Hkv' as [->|Hkv'].
      * apply Status_eqb_eq in Hq'. rewrite Hq' in Hb.
        destruct (foldr older_queued None l) as [b|];
          [destruct (_ <=? _)|]; discriminate.
      * destruct (Status_eqb (status y.2) queued);
          [destruct (foldr older_queued None l) as [b|];
           [destruct (_ <=? _)|]; discriminate|].
        by apply IHl.
  - destruct (IH kv H) as (Hin & Hkq & Hmin).
    split; [by right|]. split; [done|].
    intros kv' Hkv' Hq'. apply elem_of_cons in Hkv' as [->|Hkv'].
    + apply Status_eqb_eq in Hq'. congruence.
    + by apply Hmin.
Qed.

Lemma foldr_older_queued_None (l : list (string * Row)) :
  foldr older_queued None l = None <->
  forall kv, kv ∈ l -> status kv.2 <> queued.
Proof.
  induction l as [|x l IH]; simpl.
  - split; [|done]. intros _ kv Hkv. by inversion Hkv.
  - unfold older_queued at 1.
    destruct (Status_eqb (status x.2) queued) eqn:Hq.
    + apply Status_eqb_eq in Hq. split.
      * destruct (foldr older_queued None l) as [b|];
          [destruct (_ <=? _)|]; discriminate.
      * intros H. exfalso. apply (H x); [by left | done].
    + rewrite IH. split.
      * intros H kv Hkv. apply elem_of_cons in Hkv as [->|Hkv]; [|by apply H].
        intros Hx. apply Status_eqb_eq in Hx. congruence.
      * intros H kv Hkv. apply H. by right.
Qed.

Lemma oldest_queued_Some (t : table) jid r :
  oldest_queued t = Some (jid, r) ->
  t !! jid = Some r /\ status r = queued /\
  forall j' r', t !! j' = Some r' -> status r' = queued ->
                created_at r <= created_at r'.
Proof.
  unfold oldest_queued. intros H.
  apply foldr_older_queued_Some in H as (Hin & Hq & Hmin).
  apply elem_of_map_to_list in Hin. split; [done|]. split; [done|].
  intros j' r' Hj' Hq'. apply (Hmin (j', r')); [|done].
  by apply elem_of_map_to_list.
Qed.

Lemma oldest_queued_None (t : table) :
  oldest_queued t = None <->
  forall j r, t !! j = Some r -> status r <> queued.
Proof.
  unfold oldest_queued. rewrite foldr_older_queued_None. split.
  - intros H j r Hj. apply (H (j, r)). by apply elem_of_map_to_list.
  - intros H [j r] Hin. apply elem_of_map_to_list in Hin. by apply (H j r).
Qed.

Lemma py_or_0 x : py_or x 0 = x.
Proof. unfold py_or. destruct (x =? 0) eqn:E; [|done]. apply Z.eqb_eq in E. lia. Qed.

(** ** The job store, statement by statement *)

Lemma try_claim_queued_job_Ret w res w' :
  try_claim_queued_job w = (Ret res, w') ->
  committed w' = committed w /\
  match res with
  | None => oldest_queued (working w) = None /\ working w' = working w
  | Some job =>
      exists r,
        oldest_queued (working w) = Some (id job, r) /\
        working w' = alter (set_status processing) (id job) (working w) /\
        job = mkOCRJobRow (id job) (user_id r) (image_url r) (image_hash r)
                          processing (COALESCE (retry_count r) 0)
  end.
Proof.
  intros H. apply bind_Ret_inv in H as (row & w1 & H1 & H2).
  apply execute_Ret in H1 as (Hc & Hw & Hrow).
  unfold claim_statement in Hw, Hrow.
  destruct (oldest_queued (working w)) as [[jid r]|] eqn:Hold; simpl in *.
  - destruct (oldest_queued_Some _ _ _ Hold) as (Hlk & _ & _).
    rewrite lookup_alter_eq, Hlk in Hrow. simpl in Hrow. subst row.
    inversion H2; subst; clear H2. simpl. split; [done|].
    exists r. by rewrite py_or_0.
  - subst row. inversion H2; subst. done.
Qed.

Lemma try_claim_queued_job_Raise w e w' :
  try_claim_queued_job w = (Raise e, w') ->
  committed w' = committed w /\ working w' = working w.
Proof.
  intros H. apply bind_inv in H as [(row & w1 & H1 & H2) | (e' & H1 & _)].
  - destruct row as [[[[[[? ?] ?] ?] ?] ?]|]; discriminate.
  - by apply execute_Raise in H1.
Qed.

Lemma mark_completed_Ret jid text ms conf w w' :
  mark_completed jid text ms conf w = (Ret tt, w') ->
  committed w' = committed w /\
  working w' =
    alter (set_completed (result_envelope text ms conf) ms (db_now w)) jid
          (working w).
Proof.
  intros H. apply bind_Ret_inv in H as (now & w1 & H1 & H2).
  inversion H1; subst; clear H1.
  apply bind_Ret_inv in H2 as (row & w2 & H2 & H3).
  apply execute_Ret in H2 as (Hc & Hw & _). inversion H3; subst. done.
Qed.

Lemma mark_completed_Raise jid text ms conf w e w' :
  mark_completed jid text ms conf w = (Raise e, w') ->
  committed w' = committed w /\ working w' = working w.
Proof.
  intros H. apply bind_inv in H as [(now & w1 & H1 & H2) | (e' & H1 & _)];
    [|discriminate].
  inversion H1; subst; clear H1.
  apply bind_inv in H2 as [(row & w2 & H2 & H3) | (e' & H2 & _)];
    [discriminate|]. by apply execute_Raise in H2.
Qed.

Lemma mark_failed_Ret jid msg w w' :
  mark_failed jid msg w = (Ret tt, w') ->
  committed w' = committed w /\
  working w' = alter (set_failed (str_slice_to 2000 msg)) jid (working w).
Proof.
  intros H. apply bind_Ret_inv in H as (row & w1 & H1 & H2).
  apply execute_Ret in H1 as (Hc & Hw & _). inversion H2; subst. done.
Qed.

Lemma mark_failed_Raise jid msg w e w' :
  mark_failed jid msg w = (Raise e, w') ->
  committed w' = committed w /\ working w' = working w.
Proof.
  intros H. apply bind_inv in H as [(row & w1 & H1 & H2) | (e' & H1 & _)];
    [discriminate|]. by apply execute_Raise in H1.
Qed.

Lemma requeue_job_Ret jid w w' :
  requeue_job jid w = (Ret tt, w') ->
  committed w' = committed w /\
  working w' = alter (set_status queued) jid (working w).
Proof.
  intros H. apply bind_Ret_inv in H as (row & w1 & H1 & H2).
  apply execute_Ret in H1 as (Hc & Hw & _). inversion H2; subst. done.
Qed.

Lemma requeue_job_Raise jid w e w' :
  requeue_job jid w = (Raise e, w') ->
  committed w' = committed w /\ working w' = working w.
Proof.
  intros H. apply bind_inv in H as [(row & w1 & H1 & H2) | (e' & H1 & _)];
    [discriminate|]. by apply execute_Raise in H1.
Qed.

Lemma increment_retry_Ret jid w n w' :
  increment_retry jid w = (Ret n, w') ->
  committed w' = committed w /\
  working w' =
    alter (fun r => set_retry_count (Some (COALESCE (retry_count r) 0 + 1)) r)
          jid (working w) /\
  n = match working w !! jid with
      | Some r => COALESCE (retry_count r) 0 + 1
      | None => 0
      end.
Proof.
  intros H. apply bind_Ret_inv in H as (row & w1 & H1 & H2).
  apply execute_Ret in H1 as (Hc & Hw & Hrow). simpl in Hw, Hrow.
  inversion H2; subst. split; [done|]. split; [done|].
  rewrite lookup_alter_eq. by destruct (working w !! jid).
Qed.

Lemma increment_retry_Raise jid w e w' :
  increment_retry jid w = (Raise e, w') ->
  committed w' = committed w /\ working w' = working w.
Proof.
  intros H. apply bind_inv in H as [(row & w1 & H1 & H2) | (e' & H1 & _)];
    [discriminate|]. by apply execute_Raise in H1.
Qed.

(** Calls that leave both tables alone. *)
Lemma time_ms_tables w :
  committed (time_ms w).2 = committed w /\ working (time_ms w).2 = working w.
Proof. unfold time_ms. by destruct (clock w). Qed.

Lemma fetch_image_bytes_tables url ms w :
  committed (fetch_image_bytes url ms w).2 = committed w /\
  working (fetch_image_bytes url ms w).2 = working w.
Proof. unfold fetch_image_bytes. simpl. by destruct (net w). Qed.

Lemma run_document_text_detection_tables img w :
  committed (run_document_text_detection img w).2 = committed w /\
  working (run_document_text_detection img w).2 = working w.
Proof. unfold run_document_text_detection. by destruct (vision w). Qed.

(** ** One cycle of [process_once] *)

Lemma time_ms_Ret w : exists t, time_ms w = (Ret t, (time_ms w).2).
Proof. unfold time_ms. destruct (clock w); eauto. Qed.

(** After a claim, [process_once] is the attempt followed, when it raises,
    by the [except] branch. *)
Lemma process_once_claimed cfg w job w1 :
  try_claim_queued_job w = (Ret (Some job), w1) ->
  Kiro.process_once cfg w =
    match Kiro.attempt cfg job w1 with
    | (Ret _, w2) => (Ret true, w2)
    | (Raise e, w2) =>
        match Kiro.process_once_except cfg job e w2 with
        | (Ret _, w3) => (Ret true, w3)
        | (Raise e', w3) => (Raise e', w3)
        end
    end.
Proof.
  intros H. unfold Kiro.process_once, Kiro.attempt.
  rewrite (bind_Ret _ _ _ _ _ H).
  destruct (time_ms_Ret w1) as [t Ht].
  rewrite !(bind_Ret _ _ _ _ _ Ht).
  unfold bind at 1. unfold try_except.
  destruct (Kiro.process_once_try cfg job t (time_ms w1).2) as [[[]|e] w2];
    [done|].
  by destruct (Kiro.process_once_except cfg job e w2) as [[[]|e'] w3].
Qed.

Lemma process_once_unclaimed cfg w w1 :
  try_claim_queued_job w = (Ret None, w1) ->
  Kiro.process_once cfg w = (Ret false, w1).
Proof.
  intros H. unfold Kiro.process_once. by rewrite (bind_Ret _ _ _ _ _ H).
Qed.

Lemma process_once_claim_raises cfg w e w1 :
  try_claim_queued_job w = (Raise e, w1) ->
  Kiro.process_once cfg w = (Raise e, w1).
Proof.
  intros H. unfold Kiro.process_once. by rewrite (bind_Raise _ _ _ _ _ H).
Qed.

(** An attempt that raises has committed nothing. *)
Lemma process_once_try_Raise cfg job start w e w' :
  Kiro.process_once_try cfg job start w = (Raise e, w') ->
  committed w' = committed w.
Proof.
  unfold Kiro.process_once_try. intros H.
  apply bind_inv in H as [(img & w1 & H1 & H) | (e1 & H1 & _)].
  2:{ pose proof (fetch_image_bytes_tables (job_image_url job)
                    (Kiro.processing_timeout_ms cfg) w) as [Hc _].
      by rewrite H1 in Hc. }
  pose proof (fetch_image_bytes_tables (job_image_url job)
                (Kiro.processing_timeout_ms cfg) w) as [Hc1 _].
  rewrite H1 in Hc1. simpl in Hc1. rewrite <- Hc1. clear Hc1 H1.
  apply bind_inv in H as [([text conf] & w2 & H2 & H) | (e2 & H2 & _)].
  2:{ pose proof (run_document_text_detection_tables img w1) as [Hc _].
      by rewrite H2 in Hc. }
  pose proof (run_document_text_detection_tables img w1) as [Hc2 _].
  rewrite H2 in Hc2. simpl in Hc2. rewrite <- Hc2. clear Hc2 H2.
  apply bind_inv in H as [(now & w3 & H3 & H) | (e3 & H3 & _)].
  2:{ destruct (time_ms_Ret w2) as [t Ht]. congruence. }
  pose proof (time_ms_tables w2) as [Hc3 _].
  rewrite H3 in Hc3. simpl in Hc3. rewrite <- Hc3. clear Hc3 H3.
  apply bind_inv in H as [([] & w4 & H4 & H) | (e4 & H4 & _)].
  2:{ by apply mark_completed_Raise in H4 as [? _]. }
  apply mark_completed_Ret in H4 as [Hc4 _]. rewrite <- Hc4.
  by apply commit_Raise in H as [? _].
Qed.

Lemma attempt_Raise cfg job w e w' :
  Kiro.attempt cfg job w = (Raise e, w') -> committed w' = committed w.
Proof.
  unfold Kiro.attempt. intros H.
  apply bind_inv in H as [(start & w1 & H1 & H) | (e1 & H1 & _)].
  - apply process_once_try_Raise in H. rewrite H.
    pose proof (time_ms_tables w) as [Hc _]. by rewrite H1 in Hc.
  - destruct (time_ms_Ret w) as [t Ht]. congruence.
Qed.

(** What a retry decision that goes through has written and committed. *)
Lemma retry_decision_Ret cfg job e w w' :
  Kiro.retry_decision cfg job e w = (Ret tt, w') ->
  let bump := fun r =>
    set_retry_count (Some (COALESCE (retry_count r) 0 + 1)) r in
  let new_count := match working w !! id job with
                   | Some r => COALESCE (retry_count r) 0 + 1
                   | None => 0
                   end in
  working w' = committed w' /\
  committed w' =
    alter (if new_count >=? Kiro.max_retries cfg
           then set_failed (str_slice_to 2000 (str e))
           else set_status queued)
          (id job) (alter bump (id job) (working w)).
Proof.
  unfold Kiro.retry_decision. intros H. simpl.
  apply bind_Ret_inv in H as (n & w1 & H1 & H).
  apply increment_retry_Ret in H1 as (_ & Hw1 & Hn).
  apply bind_Ret_inv in H as ([] & w2 & H2 & H).
  apply commit_Ret in H as [Hc Hw]. rewrite Hw, Hc. split; [done|].
  rewrite <- Hn, <- Hw1.
  destruct (n >=? Kiro.max_retries cfg).
  - by apply mark_failed_Ret in H2 as [_ ?].
  - by apply requeue_job_Ret in H2 as [_ ?].
Qed.

(** A retry decision that raises has committed nothing. *)
Lemma retry_decision_Raise cfg job e w e' w' :
  Kiro.retry_decision cfg job e w = (Raise e', w') ->
  committed w' = committed w.
Proof.
  unfold Kiro.retry_decision. intros H.
  apply bind_inv in H as [(n & w1 & H1 & H) | (e1 & H1 & _)].
  2:{ by apply increment_retry_Raise in H1 as [? _]. }
  apply increment_retry_Ret in H1 as (Hc1 & _ & _). rewrite <- Hc1.
  apply bind_inv in H as [([] & w2 & H2 & H) | (e2 & H2 & _)].
  - apply commit_Raise in H as [Hc _]. rewrite Hc.
    destruct (n >=? Kiro.max_retries cfg).
    + by apply mark_failed_Ret in H2 as [? _].
    + by apply requeue_job_Ret in H2 as [? _].
  - destruct (n >=? Kiro.max_retries cfg).
    + by apply mark_failed_Raise in H2 as [? _].
    + by apply requeue_job_Raise in H2 as [? _].
Qed.

(** The [except] branch: the rollback of the attempt, then the retry
    decision, then the rollback of a decision that raised.  Neither
    rollback stands inside a [try]. *)
Lemma process_once_except_run cfg job e w2 :
  Kiro.process_once_except cfg job e w2 =
    match rollback w2 with
    | (Raise e1, w') => (Raise e1, w')
    | (Ret _, w2') =>
        match Kiro.retry_decision cfg job e w2' with
        | (Ret a, w3) => (Ret a, w3)
        | (Raise _, w3) => rollback w3
        end
    end.
Proof.
  unfold Kiro.process_once_except, bind, try_except.
  by destruct (rollback w2) as [[[]|e1] w2'].
Qed.

Lemma process_once_settled cfg w job w1 e w2 w3 :
  try_claim_queued_job w = (Ret (Some job), w1) ->
  Kiro.attempt cfg job w1 = (Raise e, w2) ->
  (rollback w2).1 = Ret tt ->
  Kiro.retry_decision cfg job e (rollback w2).2 = (Ret tt, w3) ->
  Kiro.process_once cfg w = (Ret true, w3).
Proof.
  intros Hclaim Hatt Hrb Hdec.
  rewrite (process_once_claimed _ _ _ _ Hclaim), Hatt, process_once_except_run.
  destruct (rollback w2) as [[[]|e1] w2']; simpl in *; [|discriminate].
  by rewrite Hdec.
Qed.

Lemma process_once_unsettled cfg w job w1 e w2 e' w3 :
  try_claim_queued_job w = (Ret (Some job), w1) ->
  Kiro.attempt cfg job w1 = (Raise e, w2) ->
  (rollback w2).1 = Ret tt ->
  Kiro.retry_decision cfg job e (rollback w2).2 = (Raise e', w3) ->
  Kiro.process_once cfg w =
    match rollback w3 with
    | (Ret _, w') => (Ret true, w')
    | (Raise e2, w') => (Raise e2, w')
    end.
Proof.
  intros Hclaim Hatt Hrb Hdec.
  rewrite (process_once_claimed _ _ _ _ Hclaim), Hatt, process_once_except_run.
  destruct (rollback w2) as [[[]|e1] w2']; simpl in *; [|discriminate].
  rewrite Hdec. by destruct (rollback w3) as [[[]|e2] w'].
Qed.

(** A rollback of the attempt that raises ends [process_once] with that
    exception. *)
Lemma process_once_first_rollback_raises cfg w job w1 e w2 e1 w' :
  try_claim_queued_job w = (Ret (Some job), w1) ->
  Kiro.attempt cfg job w1 = (Raise e, w2) ->
  rollback w2 = (Raise e1, w') ->
  Kiro.process_once cfg w = (Raise e1, w').
Proof.
  intros Hclaim Hatt Hrb.
  by rewrite (process_once_claimed _ _ _ _ Hclaim), Hatt,
    process_once_except_run, Hrb.
Qed.

(** ** Hoare triples over [M] *)

Lemma hoare_ret {A : Type} (P : World -> Prop) (a : A) Q :
  (forall w, P w -> Q (Ret a) w) -> hoare P (ret a) Q.
Proof. intros H w Hw. by apply H. Qed.

Lemma hoare_bind {A B : Type} (P : World -> Prop) (m : M A) (k : A -> M B)
      (R : outcome A -> World -> Prop) Q :
  hoare P m R ->
  (forall a, hoare (R (Ret a)) (k a) Q) ->
  (forall e w, R (Raise e) w -> Q (Raise e) w) ->
  hoare P (bind m k) Q.
Proof.
  intros Hm Hk He w Hw. specialize (Hm w Hw). unfold bind.
  destruct (m w) as [[a|e] w1]; simpl in *.
  - by apply Hk.
  - by apply He.
Qed.

Lemma hoare_try {A : Type} (P : World -> Prop) (body : M A)
      (h : PyExn -> M A) (R : outcome A -> World -> Prop) Q :
  hoare P body R ->
  (forall a w, R (Ret a) w -> Q (Ret a) w) ->
  (forall e, hoare (R (Raise e)) (h e) Q) ->
  hoare P (try_except body h) Q.
Proof.
  intros Hb Hr Hh w Hw. specialize (Hb w Hw). unfold try_except.
  destruct (body w) as [[a|e] w1]; simpl in *.
  - by apply Hr.
  - by apply Hh.
Qed.

Lemma hoare_weaken {A : Type} (P P' : World -> Prop) (m : M A)
      (Q Q' : outcome A -> World -> Prop) :
  hoare P' m Q' ->
  (forall w, P w -> P' w) ->
  (forall o w, Q' o w -> Q o w) ->
  hoare P m Q.
Proof. intros H HP HQ w Hw. apply HQ, H, HP, Hw. Qed.

(** ** Rows the worker does not touch *)


Lemma frames_ret {A : Type} jid r (a : A) : frames jid r (ret a).
Proof. by apply hoare_ret. Qed.

Lemma frames_bind {A B : Type} jid r (m : M A) (k : A -> M B) :
  frames jid r m -> (forall a, frames jid r (k a)) -> frames jid r (bind m k).
Proof. intros Hm Hk. eapply hoare_bind; [exact Hm | exact Hk | done]. Qed.

Lemma frames_try {A : Type} jid r (body : M A) (h : PyExn -> M A) :
  frames jid r body -> (forall e, frames jid r (h e)) ->
  frames jid r (try_except body h).
Proof. intros Hb Hh. eapply hoare_try; [exact Hb | done | exact Hh]. Qed.

Lemma frames_storage_call jid r : frames jid r storage_call.
Proof.
  intros w [Hc Hw]. unfold keeps.
  destruct (storage_call w) as [o w'] eqn:E. simpl.
  apply storage_call_tables in E as [-> ->]. done.
Qed.

Lemma frames_execute {A : Type} jid r (stmt : table -> table * option A) :
  (forall t, (stmt t).1 !! jid = t !! jid) -> frames jid r (execute stmt).
Proof.
  intros Hstmt w [Hc Hw]. unfold keeps.
  destruct (execute stmt w) as [[row|e] w'] eqn:E; simpl.
  - apply execute_Ret in E as (-> & -> & _). by rewrite Hstmt.
  - apply execute_Raise in E as [-> ->]. done.
Qed.

Lemma frames_commit jid r : frames jid r commit.
Proof.
  intros w [Hc Hw]. unfold keeps.
  destruct (commit w) as [[[]|e] w'] eqn:E; simpl.
  - apply commit_Ret in E as [-> ->]. done.
  - apply commit_Raise in E as [-> ->]. done.
Qed.

Lemma frames_rollback jid r : frames jid r rollback.
Proof.
  intros w [Hc Hw]. unfold keeps.
  destruct (rollback w) as [[[]|e] w'] eqn:E; simpl.
  - apply rollback_Ret in E as [-> ->]. done.
  - apply rollback_Raise in E as [-> ->]. done.
Qed.

Lemma frames_time_ms jid r : frames jid r time_ms.
Proof.
  intros w [Hc Hw]. destruct (time_ms_tables w) as [Ec Ew].
  unfold keeps. by rewrite Ec, Ew.
Qed.

Lemma frames_NOW jid r : frames jid r NOW.
Proof. intros w H. exact H. Qed.

Lemma frames_sleep jid r ms : frames jid r (sleep ms).
Proof. intros w H. exact H. Qed.

Lemma frames_fetch_image_bytes jid r url ms :
  frames jid r (fetch_image_bytes url ms).
Proof.
  intros w [Hc Hw]. destruct (fetch_image_bytes_tables url ms w) as [Ec Ew].
  unfold keeps. by rewrite Ec, Ew.
Qed.

Lemma frames_run_document_text_detection jid r img :
  frames jid r (run_document_text_detection img).
Proof.
  intros w [Hc Hw].
  destruct (run_document_text_detection_tables img w) as [Ec Ew].
  unfold keeps. by rewrite Ec, Ew.
Qed.

Lemma frames_notifies_get jid r ms : frames jid r (notifies_get ms).
Proof. intros w H. exact H. Qed.

Lemma frames_conn_poll jid r : frames jid r conn_poll.
Proof. intros w H. exact H. Qed.

Create HintDb frames discriminated.
#[local] Hint Resolve frames_storage_call frames_commit
  frames_rollback frames_time_ms frames_NOW frames_sleep
  frames_fetch_image_bytes frames_run_document_text_detection
  frames_notifies_get frames_conn_poll : frames.

(** The statements that name a job by [WHERE id = %s] touch that job only. *)
Lemma frames_update {A : Type} jid r k (f : Row -> Row)
      (ret_row : table -> option A) :
  k <> jid ->
  frames jid r (execute (fun t => (alter f k t, ret_row (alter f k t)))).
Proof. intros Hk. apply frames_execute. intros t. simpl. by apply lookup_alter_ne. Qed.

Lemma frames_mark_completed jid r k text ms conf :
  k <> jid -> frames jid r (mark_completed k text ms conf).
Proof.
  intros Hk. unfold mark_completed.
  apply frames_bind; [auto with frames|]. intros now.
  apply frames_bind; [|intros; apply frames_ret].
  by apply (frames_update jid r k _ (fun _ => None)).
Qed.

Lemma frames_mark_failed jid r k msg :
  k <> jid -> frames jid r (mark_failed k msg).
Proof.
  intros Hk. unfold mark_failed.
  apply frames_bind; [|intros; apply frames_ret].
  by apply (frames_update jid r k _ (fun _ => None)).
Qed.

Lemma frames_requeue_job jid r k :
  k <> jid -> frames jid r (requeue_job k).
Proof.
  intros Hk. unfold requeue_job.
  apply frames_bind; [|intros; apply frames_ret].
  by apply (frames_update jid r k _ (fun _ => None)).
Qed.

Lemma frames_increment_retry jid r k :
  k <> jid -> frames jid r (increment_retry k).
Proof.
  intros Hk. unfold increment_retry.
  apply frames_bind; [|intros; apply frames_ret].
  unfold increment_statement.
  by apply (frames_update jid r k _ (fun t => retry_count <$> t !! k)).
Qed.

Lemma frames_process_once_try jid r cfg job start :
  id job <> jid -> frames jid r (Kiro.process_once_try cfg job start).
Proof.
  intros Hk. unfold Kiro.process_once_try.
  apply frames_bind; [auto with frames|]. intros img.
  apply frames_bind; [auto with frames|]. intros [text conf].
  apply frames_bind; [auto with frames|]. intros now.
  apply frames_bind; [by apply frames_mark_completed|]. intros _.
  auto with frames.
Qed.

Lemma frames_retry_decision jid r cfg job e :
  id job <> jid -> frames jid r (Kiro.retry_decision cfg job e).
Proof.
  intros Hk. unfold Kiro.retry_decision.
  apply frames_bind; [by apply frames_increment_retry|]. intros n.
  apply frames_bind; [|auto with frames].
  destruct (n >=? Kiro.max_retries cfg).
  - by apply frames_mark_failed.
  - by apply frames_requeue_job.
Qed.

Lemma frames_process_once_except jid r cfg job e :
  id job <> jid -> frames jid r (Kiro.process_once_except cfg job e).
Proof.
  intros Hk. unfold Kiro.process_once_except.
  apply frames_bind; [auto with frames|]. intros _.
  apply frames_try; [by apply frames_retry_decision|]. auto with frames.
Qed.

(** A claim leaves every row that is not queued as it is, and the job it
    returns is another row. *)
Lemma try_claim_queued_job_keeps jid r :
  status r <> queued ->
  hoare (keeps jid r) try_claim_queued_job
        (fun o w => keeps jid r w /\
                    forall job, o = Ret (Some job) -> id job <> jid).
Proof.
  intros Hr w [Hc Hw].
  destruct (try_claim_queued_job w) as [[[job|]|e] w'] eqn:E; simpl.
  - apply try_claim_queued_job_Ret in E as (Ec & r0 & Hold & Ew & _).
    apply oldest_queued_Some in Hold as (Hlk & Hq & _).
    assert (id job <> jid) as Hne
      by (intros Heq; rewrite Heq in Hlk; congruence).
    split; [|by intros ? [= <-]].
    unfold keeps. rewrite Ec, Ew. by rewrite lookup_alter_ne.
  - apply try_claim_queued_job_Ret in E as (Ec & _ & Ew).
    split; [|done]. unfold keeps. by rewrite Ec, Ew.
  - apply try_claim_queued_job_Raise in E as [Ec Ew].
    split; [|done]. unfold keeps. by rewrite Ec, Ew.
Qed.

Lemma frames_process_once jid r cfg :
  status r <> queued -> frames jid r (Kiro.process_once cfg).
Proof.
  intros Hr. unfold Kiro.process_once.
  eapply hoare_bind; [by apply try_claim_queued_job_keeps| |].
  - intros [job|]; [|apply hoare_ret; tauto].
    intros w [Hk Hj]. specialize (Hj job eq_refl).
    assert (frames jid r
              (start <- time_ms ;;
               try_except (Kiro.process_once_try cfg job start)
                          (Kiro.process_once_except cfg job) ;;
               ret true)) as F.
    { apply frames_bind; [auto with frames|]. intros start.
      apply frames_bind; [|intros; apply frames_ret].
      apply frames_try; [by apply frames_process_once_try|].
      intros e. by apply frames_process_once_except. }
    exact (F w Hk).
  - intros e w [Hk _]. exact Hk.
Qed.

(** Neither wake channel writes to the table. *)
Lemma frames_listen jid r : frames jid r (execute (A := unit) (fun t => (t, None))).
Proof. by apply frames_execute. Qed.

Lemma frames_Kiro_listen_for_jobs jid r poll :
  frames jid r (Kiro.listen_for_jobs poll).
Proof.
  unfold Kiro.listen_for_jobs.
  apply frames_bind; [apply frames_listen|]. intros _.
  apply frames_bind; [auto with frames|]. intros _.
  apply frames_try; [auto with frames|]. intros; apply frames_ret.
Qed.

Lemma frames_OcrWorker_listen_for_jobs jid r poll use_notify :
  frames jid r (OcrWorker.listen_for_jobs poll use_notify).
Proof.
  unfold OcrWorker.listen_for_jobs.
  apply frames_bind.
  - destruct use_notify; [|apply frames_ret].
    apply frames_try; [|intros; apply frames_ret].
    apply frames_bind; [apply frames_listen|]. intros _.
    apply frames_bind; [auto with frames|]. intros; apply frames_ret.
  - intros [|]; [apply frames_ret | auto with frames].
Qed.

(** The loop, step by step. *)
Lemma loop_step_keeps jid r (drain : M bool) (wait : M unit) st :
  frames jid r drain -> frames jid r wait ->
  keeps jid r st.2 -> keeps jid r (loop_step drain wait st).2.
Proof.
  intros Hd Hwt. destruct st as [[| |e] w]; simpl; intros Hk.
  - specialize (Hd w Hk). by destruct (drain w) as [[[|]|e] w'].
  - specialize (Hwt w Hk). by destruct (wait w) as [[[]|e] w'].
  - done.
Qed.

Lemma loop_steps_keeps jid r (drain : M bool) (wait : M unit) n st :
  frames jid r drain -> frames jid r wait ->
  keeps jid r st.2 -> keeps jid r (loop_steps drain wait n st).2.
Proof.
  intros Hd Hwt. revert st. induction n as [|n IH]; intros st Hk; [done|].
  simpl. apply IH. by apply loop_step_keeps.
Qed.

Lemma run_steps_keeps cfg jid r n st :
  status r <> queued ->
  keeps jid r st.2 -> keeps jid r (Kiro.run_steps cfg n st).2.
Proof.
  intros Hr. apply loop_steps_keeps.
  - by apply frames_process_once.
  - apply frames_Kiro_listen_for_jobs.
Qed.

(** * The claims *)

(** ** Failure path: requeue or fail *)

(** What the claim and the failed attempt leave behind: nothing is
    committed, and the job is the queued row the claim selected. *)
Lemma failed_attempt_state cfg w job w1 e w2 :
  working w = committed w ->
  try_claim_queued_job w = (Ret (Some job), w1) ->
  Kiro.attempt cfg job w1 = (Raise e, w2) ->
  committed w2 = committed w /\
  exists r0, committed w !! id job = Some r0 /\
             status r0 = queued /\
             job_retry_count job = COALESCE (retry_count r0) 0.
Proof.
  intros Hclean Hclaim Hatt.
  apply try_claim_queued_job_Ret in Hclaim as (Ec1 & r0 & Hold & _ & Hjob).
  apply oldest_queued_Some in Hold as (Hlk & Hq & _).
  apply attempt_Raise in Hatt. split; [congruence|].
  exists r0. rewrite <- Hclean. split; [done|]. split; [done|].
  by rewrite Hjob.
Qed.

(** C1: when the attempt on a claimed job fails and the incremented retry
    counter is still below [max_retries], the settled cycle leaves the job
    [queued] with its retry counter one higher, a null counter counting as
    zero.  The cycle is settled when the rollback of the attempt is served
    and the retry decision goes through. *)
Theorem C1_failed_attempt_requeues cfg w job w1 e w2 w3 :
  working w = committed w ->
  try_claim_queued_job w = (Ret (Some job), w1) ->
  Kiro.attempt cfg job w1 = (Raise e, w2) ->
  (rollback w2).1 = Ret tt ->
  Kiro.retry_decision cfg job e (rollback w2).2 = (Ret tt, w3) ->
  job_retry_count job + 1 < Kiro.max_retries cfg ->
  Kiro.process_once cfg w = (Ret true, w3) /\
  exists r0 r,
    committed w !! id job = Some r0 /\
    job_retry_count job = COALESCE (retry_count r0) 0 /\
    committed w3 !! id job = Some r /\
    status r = queued /\
    retry_count r = Some (COALESCE (retry_count r0) 0 + 1).
Proof.
  intros Hclean Hclaim Hatt Hrb Hdec Hlt.
  split; [by eapply process_once_settled|].
  destruct (failed_attempt_state _ _ _ _ _ _ Hclean Hclaim Hatt)
    as (Ec2 & r0 & Hlk & _ & Hrc).
  apply retry_decision_Ret in Hdec as [_ Hc3]. cbv zeta in Hc3.
  rewrite (rollback_served _ Hrb) in Hc3.
  rewrite Ec2, Hlk, <- Hrc in Hc3.
  replace (job_retry_count job + 1 >=? Kiro.max_retries cfg) with false
    in Hc3 by (symmetry; rewrite Z.geb_leb; apply Z.leb_gt; lia).
  exists r0, (set_status queued
                (set_retry_count (Some (job_retry_count job + 1)) r0)).
  split; [done|]. split; [done|]. split; [|by rewrite Hrc].
  rewrite Hc3, !lookup_alter_eq, Hlk. simpl. by rewrite Hrc.
Qed.

Lemma C1_witness :
  Kiro.process_once sample_cfg (world_fetch_fails (Some 1)) =
    (Ret true, decided (world_fetch_fails (Some 1)) (sample_job 1) http_404)
  /\
  exists r0 r,
    committed (world_fetch_fails (Some 1)) !! "job-b" = Some r0 /\
    1 = COALESCE (retry_count r0) 0 /\
    committed (decided (world_fetch_fails (Some 1)) (sample_job 1) http_404)
      !! "job-b" = Some r /\
    status r = queued /\
    retry_count r = Some (COALESCE (retry_count r0) 0 + 1).
Proof.
  apply (C1_failed_attempt_requeues sample_cfg (world_fetch_fails (Some 1))
           (sample_job 1) (claimed (world_fetch_fails (Some 1))) http_404
           (attempted (world_fetch_fails (Some 1)) (sample_job 1))).
  - reflexivity.
  - vm_compute. reflexivity.
  - vm_compute. reflexivity.
  - vm_compute. reflexivity.
  - vm_compute. reflexivity.
  - vm_compute. reflexivity.
Defined.

(** C2: when the incremented retry counter reaches [max_retries], the
    settled cycle (the rollback of the attempt is served and the retry
    decision goes through) leaves the job [failed] with [str(e)] as message
    (cut to 2000 characters by [mark_failed]); from then on no step of the
    worker loop, whatever the outside world does, changes the row. *)
Theorem C2_exhausted_job_fails_for_good cfg w job w1 e w2 w3 :
  working w = committed w ->
  try_claim_queued_job w = (Ret (Some job), w1) ->
  Kiro.attempt cfg job w1 = (Raise e, w2) ->
  (rollback w2).1 = Ret tt ->
  Kiro.retry_decision cfg job e (rollback w2).2 = (Ret tt, w3) ->
  Kiro.max_retries cfg <= job_retry_count job + 1 ->
  Kiro.process_once cfg w = (Ret true, w3) /\
  exists r,
    committed w3 !! id job = Some r /\
    status r = failed /\
    error_message r = Some (str_slice_to 2000 (str e)) /\
    ((String.length (str e) <= 2000)%nat -> error_message r = Some (str e)) /\
    forall (n : nat) (ph : Phase) (later : World),
      committed later = committed w3 ->
      working later = working w3 ->
      committed (Kiro.run_steps cfg n (ph, later)).2 !! id job = Some r /\
      working (Kiro.run_steps cfg n (ph, later)).2 !! id job = Some r /\
      forall job',
        (try_claim_queued_job (Kiro.run_steps cfg n (ph, later)).2).1 =
          Ret (Some job') ->
        id job' <> id job.
Proof.
  intros Hclean Hclaim Hatt Hrb Hdec Hge.
  split; [by eapply process_once_settled|].
  destruct (failed_attempt_state _ _ _ _ _ _ Hclean Hclaim Hatt)
    as (Ec2 & r0 & Hlk & _ & Hrc).
  apply retry_decision_Ret in Hdec as [Hw3 Hc3]. cbv zeta in Hc3.
  rewrite (rollback_served _ Hrb) in Hc3.
  rewrite Ec2, Hlk, <- Hrc in Hc3.
  replace (job_retry_count job + 1 >=? Kiro.max_retries cfg) with true
    in Hc3 by (symmetry; rewrite Z.geb_leb; apply Z.leb_le; lia).
  set (r := set_failed (str_slice_to 2000 (str e))
              (set_retry_count (Some (COALESCE (retry_count r0) 0 + 1)) r0)).
  assert (committed w3 !! id job = Some r) as Hr
    by (rewrite Hc3, !lookup_alter_eq, Hlk; reflexivity).
  exists r. split; [done|]. split; [done|]. split; [done|].
  split; [intros Hlen; unfold r, set_failed, error_message;
          by rewrite str_slice_to_short|].
  intros n ph later Elc Elw.
  assert (keeps (id job) r later) as Hk
    by (unfold keeps; rewrite Elc, Elw, Hw3; done).
  assert (status r <> queued) as Hnq by done.
  destruct (run_steps_keeps cfg (id job) r n (ph, later) Hnq Hk) as [Kc Kw].
  split; [done|]. split; [done|].
  intros job' Hjob'.
  pose proof (try_claim_queued_job_keeps (id job) r Hnq _ (conj Kc Kw))
    as [_ Hne].
  by apply Hne.
Qed.

Lemma C2_witness :
  Kiro.process_once sample_cfg (world_fetch_fails (Some 2)) =
    (Ret true, decided (world_fetch_fails (Some 2)) (sample_job 2) http_404)
  /\
  exists r,
    committed (decided (world_fetch_fails (Some 2)) (sample_job 2) http_404)
      !! "job-b" = Some r /\
    status r = failed /\
    error_message r = Some (str_slice_to 2000 "404 Client Error") /\
    ((String.length "404 Client Error" <= 2000)%nat ->
     error_message r = Some "404 Client Error") /\
    forall (n : nat) (ph : Phase) (later : World),
      committed later =
        committed (decided (world_fetch_fails (Some 2)) (sample_job 2)
                           http_404) ->
      working later =
        working (decided (world_fetch_fails (Some 2)) (sample_job 2)
                         http_404) ->
      committed (Kiro.run_steps sample_cfg n (ph, later)).2 !! "job-b"
        = Some r /\
      working (Kiro.run_steps sample_cfg n (ph, later)).2 !! "job-b"
        = Some r /\
      forall job',
        (try_claim_queued_job (Kiro.run_steps sample_cfg n (ph, later)).2).1 =
          Ret (Some job') ->
        id job' <> "job-b".
Proof.
  apply (C2_exhausted_job_fails_for_good sample_cfg
           (world_fetch_fails (Some 2)) (sample_job 2)
           (claimed (world_fetch_fails (Some 2))) http_404
           (attempted (world_fetch_fails (Some 2)) (sample_job 2))).
  - reflexivity.
  - vm_compute. reflexivity.
  - vm_compute. reflexivity.
  - vm_compute. reflexivity.
  - vm_compute. reflexivity.
  - simpl. lia.
Defined.

(** ** Failure of the retry decision itself *)

(** What a cycle whose retry decision raises leaves behind, whatever the
    second rollback does: nothing is committed, so the job is persisted as
    the [queued] row it was before the claim. *)
Lemma failed_decision_commits_nothing cfg w job w1 e w2 e' w3 :
  working w = committed w ->
  try_claim_queued_job w = (Ret (Some job), w1) ->
  Kiro.attempt cfg job w1 = (Raise e, w2) ->
  Kiro.retry_decision cfg job e (rollback w2).2 = (Raise e', w3) ->
  committed (rollback w3).2 = committed w /\
  exists r0, committed w !! id job = Some r0 /\
             status r0 = queued /\
             job_retry_count job = COALESCE (retry_count r0) 0.
Proof.
  intros Hclean Hclaim Hatt Hdec.
  destruct (failed_attempt_state _ _ _ _ _ _ Hclean Hclaim Hatt)
    as (Ec2 & r0 & Hlk & Hq & Hrc).
  apply retry_decision_Raise in Hdec.
  rewrite rollback_committed in Hdec. rewrite rollback_committed.
  split; [congruence|]. by exists r0.
Qed.

(** C4, what the code does when persisting the retry decision fails.  The
    claim is never committed on its own, so the [conn.rollback()] after the
    failed attempt has already undone it: the job is persisted as [queued]
    with its old retry counter, not as [processing].  What happens next
    depends on the [conn.rollback()] of the inner [except], which stands
    outside any [try]: served, [process_once] returns [True], the session
    is as committed and the loop goes on draining; raising, the exception
    leaves [process_once] and ends the loop. *)
Theorem C4_failed_decision_rolls_back cfg w job w1 e w2 e' w3 :
  working w = committed w ->
  try_claim_queued_job w = (Ret (Some job), w1) ->
  Kiro.attempt cfg job w1 = (Raise e, w2) ->
  (rollback w2).1 = Ret tt ->
  Kiro.retry_decision cfg job e (rollback w2).2 = (Raise e', w3) ->
  committed (Kiro.process_once cfg w).2 = committed w /\
  (exists r0,
     committed (Kiro.process_once cfg w).2 !! id job = Some r0 /\
     status r0 = queued /\
     job_retry_count job = COALESCE (retry_count r0) 0) /\
  (forall w',
     rollback w3 = (Ret tt, w') ->
     Kiro.process_once cfg w = (Ret true, w') /\
     working w' = committed w /\
     Kiro.run_step cfg (Draining, w) = (Draining, w')) /\
  (forall e2 w',
     rollback w3 = (Raise e2, w') ->
     Kiro.process_once cfg w = (Raise e2, w') /\
     Kiro.run_step cfg (Draining, w) = (Crashed e2, w')).
Proof.
  intros Hclean Hclaim Hatt Hrb Hdec.
  pose proof (process_once_unsettled _ _ _ _ _ _ _ _ Hclaim Hatt Hrb Hdec)
    as Hrun.
  destruct (failed_decision_commits_nothing _ _ _ _ _ _ _ _
              Hclean Hclaim Hatt Hdec) as (Ec & r0 & Hlk & Hq & Hrc).
  assert (committed (Kiro.process_once cfg w).2 = committed w) as Ecw.
  { rewrite Hrun, <- Ec. by destruct (rollback w3) as [[[]|e2] w']. }
  split; [exact Ecw|]. split; [exists r0; by rewrite Ecw|]. split.
  - intros w' Hrb3. rewrite Hrb3 in Hrun, Ec. simpl in Ec.
    split; [exact Hrun|]. split.
    + apply rollback_Ret in Hrb3 as [Hc ->]. congruence.
    + unfold Kiro.run_step, loop_step. by rewrite Hrun.
  - intros e2 w' Hrb3. rewrite Hrb3 in Hrun.
    split; [exact Hrun|]. unfold Kiro.run_step, loop_step. by rewrite Hrun.
Qed.

Lemma C4_witness :
  committed (Kiro.process_once sample_cfg world_connection_lost).2 =
    committed world_connection_lost /\
  (exists r0,
     committed (Kiro.process_once sample_cfg world_connection_lost).2
       !! "job-b" = Some r0 /\
     status r0 = queued /\
     1 = COALESCE (retry_count r0) 0) /\
  (forall w',
     rollback (decided world_connection_lost (sample_job 1) http_404) =
       (Ret tt, w') ->
     Kiro.process_once sample_cfg world_connection_lost = (Ret true, w') /\
     working w' = committed world_connection_lost /\
     Kiro.run_step sample_cfg (Draining, world_connection_lost) =
       (Draining, w')) /\
  (forall e2 w',
     rollback (decided world_connection_lost (sample_job 1) http_404) =
       (Raise e2, w') ->
     Kiro.process_once sample_cfg world_connection_lost = (Raise e2, w') /\
     Kiro.run_step sample_cfg (Draining, world_connection_lost) =
       (Crashed e2, w')).
Proof.
  apply (C4_failed_decision_rolls_back sample_cfg world_connection_lost
           (sample_job 1) (claimed world_connection_lost) http_404
           (attempted world_connection_lost (sample_job 1)) db_down
           (decided world_connection_lost (sample_job 1) http_404)).
  - reflexivity.
  - vm_compute. reflexivity.
  - vm_compute. reflexivity.
  - vm_compute. reflexivity.
  - vm_compute. reflexivity.
Defined.

(** C4 at two inputs.  In both the download fails and the first statement
    of the retry decision raises.  When the rollback after it is served,
    the cycle returns [True], the committed row of the job is [queued], not
    [processing], its retry counter is still 1, and the next claim returns
    the same job again.  When the connection is lost for good, that
    rollback raises too: the exception leaves [process_once] and the worker
    loop ends. *)
Lemma C4_counterexample :
  (try_claim_queued_job world_decision_fails =
     (Ret (Some (sample_job 1)), claimed world_decision_fails) /\
   Kiro.attempt sample_cfg (sample_job 1) (claimed world_decision_fails) =
     (Raise http_404, attempted world_decision_fails (sample_job 1)) /\
   (rollback (attempted world_decision_fails (sample_job 1))).1 = Ret tt /\
   Kiro.retry_decision sample_cfg (sample_job 1) http_404
     (rollback (attempted world_decision_fails (sample_job 1))).2 =
     (Raise db_down, decided world_decision_fails (sample_job 1) http_404) /\
   (Kiro.process_once sample_cfg world_decision_fails).1 = Ret true /\
   status <$> committed (Kiro.process_once sample_cfg world_decision_fails).2
                !! "job-b" = Some queued /\
   status <$> committed (Kiro.process_once sample_cfg world_decision_fails).2
                !! "job-b" <> Some processing /\
   retry_count <$>
     committed (Kiro.process_once sample_cfg world_decision_fails).2
       !! "job-b" = Some (Some 1) /\
   (try_claim_queued_job
      (Kiro.process_once sample_cfg world_decision_fails).2).1 =
     Ret (Some (sample_job 1))) /\
  (Kiro.retry_decision sample_cfg (sample_job 1) http_404
     (rollback (attempted world_connection_lost (sample_job 1))).2 =
     (Raise db_down, decided world_connection_lost (sample_job 1) http_404) /\
   (rollback (decided world_connection_lost (sample_job 1) http_404)).1 =
     Raise db_down /\
   (Kiro.process_once sample_cfg world_connection_lost).1 = Raise db_down /\
   (Kiro.run_step sample_cfg (Draining, world_connection_lost)).1 =
     Crashed db_down /\
   (Kiro.run_steps sample_cfg 5 (Draining, world_connection_lost)).1 =
     Crashed db_down).
Proof. vm_compute. repeat split; try reflexivity. discriminate. Qed.

(** ** The successful cycle *)

(** The scripts a call does not read stay as they are. *)
Lemma storage_call_env w o w' :
  storage_call w = (o, w') ->
  clock w' = clock w /\ vision w' = vision w /\ db_now w' = db_now w.
Proof.
  unfold storage_call. destruct (faults w) as [|[e|] rest]; intros H;
    inversion H; subst; done.
Qed.

Lemma execute_env {A : Type} (stmt : table -> table * option A) w o w' :
  execute stmt w = (o, w') ->
  clock w' = clock w /\ vision w' = vision w /\ db_now w' = db_now w.
Proof.
  intros H. apply bind_inv in H as [([] & w1 & H1 & H2) | (e' & H1 & _)].
  - apply storage_call_env in H1 as (<- & <- & <-).
    destruct (stmt (working w1)). inversion H2; subst. done.
  - by apply storage_call_env in H1.
Qed.

Lemma try_claim_queued_job_env w o w' :
  try_claim_queued_job w = (o, w') ->
  clock w' = clock w /\ vision w' = vision w /\ db_now w' = db_now w.
Proof.
  intros H. apply bind_inv in H as [(row & w1 & H1 & H2) | (e' & H1 & _)].
  - apply execute_env in H1 as (<- & <- & <-).
    destruct row as [[[[[[? ?] ?] ?] ?] ?]|]; inversion H2; subst; done.
  - by apply execute_env in H1.
Qed.

Lemma time_ms_run w t w' :
  time_ms w = (Ret t, w') ->
  t = hd 0 (clock w) /\ clock w' = tl (clock w) /\
  vision w' = vision w /\ db_now w' = db_now w /\
  committed w' = committed w /\ working w' = working w.
Proof.
  unfold time_ms. destruct (clock w) as [|t0 rest] eqn:E; intros H;
    inversion H; subst; simpl; rewrite ?E; done.
Qed.

Lemma fetch_image_bytes_env url ms w o w' :
  fetch_image_bytes url ms w = (o, w') ->
  clock w' = clock w /\ vision w' = vision w /\ db_now w' = db_now w /\
  committed w' = committed w /\ working w' = working w.
Proof.
  unfold fetch_image_bytes. simpl. destruct (net w); intros H;
    inversion H; subst; done.
Qed.

Lemma run_document_text_detection_Ret img w tc w' :
  run_document_text_detection img w = (Ret tc, w') ->
  head (vision w) = Some (Ret tc) /\
  clock w' = clock w /\ db_now w' = db_now w /\
  committed w' = committed w /\ working w' = working w.
Proof.
  unfold run_document_text_detection.
  destruct (vision w) as [|o rest]; intros H; inversion H; subst; done.
Qed.

(** An attempt that returns has committed the completed row. *)
Lemma process_once_try_Ret cfg job start w w' :
  Kiro.process_once_try cfg job start w = (Ret tt, w') ->
  exists text conf,
    head (vision w) = Some (Ret (text, conf)) /\
    working w' = committed w' /\
    committed w' =
      alter (set_completed
               (result_envelope text (hd 0 (clock w) - start) conf)
               (hd 0 (clock w) - start) (db_now w))
            (id job) (working w).
Proof.
  unfold Kiro.process_once_try. intros H.
  apply bind_Ret_inv in H as (img & w1 & H1 & H).
  apply fetch_image_bytes_env in H1 as (Ek1 & Ev1 & En1 & _ & Ew1).
  apply bind_Ret_inv in H as ([text conf] & w2 & H2 & H).
  apply run_document_text_detection_Ret in H2 as (Hv & Ek2 & En2 & _ & Ew2).
  apply bind_Ret_inv in H as (now & w3 & H3 & H).
  apply time_ms_run in H3 as (Hnow & _ & _ & En3 & _ & Ew3).
  apply bind_Ret_inv in H as ([] & w4 & H4 & H).
  apply mark_completed_Ret in H4 as (_ & Ew4).
  apply commit_Ret in H as [Ec Ew].
  exists text, conf. split; [congruence|]. split; [congruence|].
  rewrite Ec, Ew4, Hnow, Ek2, Ek1, En3, En2, En1, Ew3, Ew2, Ew1. done.
Qed.

(** C6, as the code has it: a cycle whose attempt goes through commits the
    job as [completed], stamped with the server's [NOW()], with an envelope
    that holds the collaborator's text and confidence, two empty lists,
    [aiParsingUsed] false, and as [processingTime] the difference of the
    two clock readings; that difference is not negative when the second
    reading is not before the first. *)
Theorem C6_completed_row cfg w job w1 w' t_start t_end later text conf :
  working w = committed w ->
  clock w = t_start :: t_end :: later ->
  head (vision w) = Some (Ret (text, conf)) ->
  try_claim_queued_job w = (Ret (Some job), w1) ->
  Kiro.attempt cfg job w1 = (Ret tt, w') ->
  t_start <= t_end ->
  Kiro.process_once cfg w = (Ret true, w') /\
  exists r,
    committed w' !! id job = Some r /\
    status r = completed /\
    completed_at r = Some (db_now w) /\
    result r =
      Some (JDict [ ("ocrText", JStr text);
                    ("extractedItems", JList []);
                    ("confidence", JFloat conf);
                    ("flaggedFields", JList []);
                    ("processingTime", JInt (t_end - t_start));
                    ("aiParsingUsed", JBool false) ]) /\
    0 <= t_end - t_start.
Proof.
  intros Hclean Hclock Hvis Hclaim Hatt Hle.
  split; [by rewrite (process_once_claimed _ _ _ _ Hclaim), Hatt|].
  pose proof (try_claim_queued_job_env _ _ _ Hclaim) as (Ek1 & Ev1 & En1).
  apply try_claim_queued_job_Ret in Hclaim as (_ & r0 & Hold & Ew1 & _).
  apply oldest_queued_Some in Hold as (Hlk & _ & _).
  unfold Kiro.attempt in Hatt.
  apply bind_Ret_inv in Hatt as (start & w2 & H2 & Hatt).
  apply time_ms_run in H2 as (Hstart & Ek2 & Ev2 & En2 & _ & Ew2).
  apply process_once_try_Ret in Hatt as (text' & conf' & Hv & _ & Ec).
  rewrite Ev2, Ev1, Hvis in Hv. inversion Hv; subst text' conf'; clear Hv.
  rewrite Ek2, Ek1, Hclock in Ec. rewrite Ek1, Hclock in Hstart.
  simpl in Ec, Hstart. subst start.
  rewrite En2, En1, Ew2, Ew1 in Ec.
  eexists. split.
  - rewrite Ec, !lookup_alter_eq, Hlk. reflexivity.
  - simpl. repeat split; try done. lia.
Qed.

Lemma C6_witness :
  Kiro.process_once sample_cfg (world_success 1000 1250) =
    (Ret true, attempted (world_success 1000 1250) (sample_job 0)) /\
  exists r,
    committed (attempted (world_success 1000 1250) (sample_job 0))
      !! "job-b" = Some r /\
    status r = completed /\
    completed_at r = Some 0 /\
    result r =
      Some (JDict [ ("ocrText", JStr "Soup 4.50");
                    ("extractedItems", JList []);
                    ("confidence", JFloat 0.5%float);
                    ("flaggedFields", JList []);
                    ("processingTime", JInt (1250 - 1000));
                    ("aiParsingUsed", JBool false) ]) /\
    0 <= 1250 - 1000.
Proof.
  apply (C6_completed_row sample_cfg (world_success 1000 1250) (sample_job 0)
           (claimed (world_success 1000 1250))
           (attempted (world_success 1000 1250) (sample_job 0))
           1000 1250 [] "Soup 4.50" 0.5%float).
  - reflexivity.
  - reflexivity.
  - reflexivity.
  - vm_compute. reflexivity.
  - vm_compute. reflexivity.
  - lia.
Defined.

(** C6 as stated fails: [time.time()] is the wall clock; when it is set
    back between the two readings, a successful cycle stores a negative
    [processingTime]. *)
Lemma C6_counterexample :
  Kiro.process_once sample_cfg (world_success 1000 999) =
    (Ret true, attempted (world_success 1000 999) (sample_job 0)) /\
  status <$> committed (attempted (world_success 1000 999) (sample_job 0))
               !! "job-b" = Some completed /\
  (committed (attempted (world_success 1000 999) (sample_job 0)) !! "job-b"
     ≫= result) =
    Some (JDict [ ("ocrText", JStr "Soup 4.50");
                  ("extractedItems", JList []);
                  ("confidence", JFloat 0.5%float);
                  ("flaggedFields", JList []);
                  ("processingTime", JInt (-1));
                  ("aiParsingUsed", JBool false) ]) /\
  ~ 0 <= -1.
Proof. vm_compute. repeat split; try reflexivity. intros H. by apply H. Qed.

(** ** The job store *)

(** C3: a claim that the store serves returns [None] exactly when no row
    is queued, and then changes nothing; otherwise it returns, as an
    [OCRJobRow], a queued row whose [created_at] no queued row undercuts,
    with that row, and no other, set to [processing].  Rows in any other
    status are never selected or changed, and the claim is one statement:
    when it raises, nothing has changed. *)
Theorem C3_claim_takes_oldest_queued w :
  (forall e, head (faults w) <> Some (Some e)) ->
  exists res w',
    try_claim_queued_job w = (Ret res, w') /\
    (res = None <-> forall j r, working w !! j = Some r -> status r <> queued) /\
    (res = None -> working w' = working w) /\
    (forall job, res = Some job ->
       exists r,
         working w !! id job = Some r /\
         status r = queued /\
         (forall j' r', working w !! j' = Some r' -> status r' = queued ->
                        created_at r <= created_at r') /\
         working w' !! id job = Some (set_status processing r) /\
         (forall j, j <> id job -> working w' !! j = working w !! j) /\
         job = mkOCRJobRow (id job) (user_id r) (image_url r) (image_hash r)
                           processing (COALESCE (retry_count r) 0)) /\
    (forall j r, working w !! j = Some r -> status r <> queued ->
                 working w' !! j = Some r) /\
    committed w' = committed w.
Proof.
  intros Hok.
  destruct (try_claim_queued_job w) as [[res|e] w'] eqn:E.
  2:{ exfalso. unfold try_claim_queued_job in E.
      apply bind_inv in E as [(row & w1 & H1 & H2) | (e' & H1 & [= <-])].
      - destruct row as [[[[[[? ?] ?] ?] ?] ?]|]; discriminate.
      - unfold execute in H1.
        apply bind_inv in H1 as [([] & w2 & H1 & H3) | (e' & H1 & [= <-])].
        + destruct (claim_statement (working w2)); discriminate.
        + apply storage_call_Raise in H1. by apply (Hok e). }
  exists res, w'. split; [done|].
  apply try_claim_queued_job_Ret in E as (Ec & E).
  destruct res as [job|].
  - destruct E as (r & Hold & Ew & Hjob).
    pose proof (oldest_queued_Some _ _ _ Hold) as (Hlk & Hq & Hmin).
    split; [split; [done|]; intros Hnone; by destruct (Hnone _ _ Hlk)|].
    split; [done|]. split; [|split; [|done]].
    + intros job' [= <-]. exists r. rewrite Ew.
      split; [done|]. split; [done|]. split; [done|].
      split; [by rewrite lookup_alter_eq, Hlk|].
      split; [|done]. intros j Hj. by rewrite lookup_alter_ne.
    + intros j r' Hj Hnq. rewrite Ew, lookup_alter_ne; [done|].
      intros <-. congruence.
  - destruct E as (Hold & Ew). rewrite oldest_queued_None in Hold.
    split; [by split|]. split; [done|]. split; [done|]. split; [|done].
    intros j r Hj _. by rewrite Ew.
Qed.

Lemma C3_witness :
  exists res w',
    try_claim_queued_job (sample_world (sample_table None)) = (Ret res, w') /\
    (res = None <->
     forall j r, working (sample_world (sample_table None)) !! j = Some r ->
                 status r <> queued) /\
    (res = None -> working w' = working (sample_world (sample_table None))) /\
    (forall job, res = Some job ->
       exists r,
         working (sample_world (sample_table None)) !! id job = Some r /\
         status r = queued /\
         (forall j' r',
            working (sample_world (sample_table None)) !! j' = Some r' ->
            status r' = queued -> created_at r <= created_at r') /\
         working w' !! id job = Some (set_status processing r) /\
         (forall j, j <> id job ->
                    working w' !! j =
                      working (sample_world (sample_table None)) !! j) /\
         job = mkOCRJobRow (id job) (user_id r) (image_url r) (image_hash r)
                           processing (COALESCE (retry_count r) 0)) /\
    (forall j r, working (sample_world (sample_table None)) !! j = Some r ->
                 status r <> queued -> working w' !! j = Some r) /\
    committed w' = committed (sample_world (sample_table None)).
Proof.
  apply (C3_claim_takes_oldest_queued (sample_world (sample_table None))).
  intros e. simpl. discriminate.
Defined.

(** C7: [mark_failed] stores the message cut to at most 2000 characters: a
    longer message is stored as its first 2000 characters, a message of
    2000 characters or fewer is stored as it is. *)
Theorem C7_mark_failed_truncates w jid r msg w' :
  working w !! jid = Some r ->
  mark_failed jid msg w = (Ret tt, w') ->
  exists r',
    working w' !! jid = Some r' /\
    status r' = failed /\
    error_message r' = Some (str_slice_to 2000 msg) /\
    (String.length (str_slice_to 2000 msg) <= 2000)%nat /\
    ((2000 < String.length msg)%nat ->
     String.length (str_slice_to 2000 msg) = 2000%nat /\
     exists rest, msg = String.append (str_slice_to 2000 msg) rest) /\
    ((String.length msg <= 2000)%nat -> error_message r' = Some msg).
Proof.
  intros Hlk Hrun. apply mark_failed_Ret in Hrun as [_ Ew].
  exists (set_failed (str_slice_to 2000 msg) r).
  split; [by rewrite Ew, lookup_alter_eq, Hlk|]. split; [done|].
  split; [done|]. rewrite str_slice_to_length.
  split; [lia|]. split.
  - intros Hlong. split; [lia|]. apply str_slice_to_prefix.
  - intros Hshort. unfold set_failed, error_message.
    by rewrite str_slice_to_short.
Qed.

Lemma C7_witness :
  exists r',
    working (mark_failed "job-b" long_message
               (sample_world (sample_table None))).2 !! "job-b" = Some r' /\
    status r' = failed /\
    error_message r' = Some (str_slice_to 2000 long_message) /\
    (String.length (str_slice_to 2000 long_message) <= 2000)%nat /\
    ((2000 < String.length long_message)%nat ->
     String.length (str_slice_to 2000 long_message) = 2000%nat /\
     exists rest,
       long_message = String.append (str_slice_to 2000 long_message) rest) /\
    ((String.length long_message <= 2000)%nat ->
     error_message r' = Some long_message).
Proof.
  apply (C7_mark_failed_truncates (sample_world (sample_table None)) "job-b"
           (sample_row queued None 3) long_message).
  - vm_compute. reflexivity.
  - vm_compute. reflexivity.
Defined.

(** C9: [requeue_job] sets the status of the job to [queued] and changes no
    other column of it and no other row.  With its [created_at] as before,
    the job is claimed next when it is older than every other queued job,
    and no claim prefers a younger job to it. *)
Theorem C9_requeue_changes_status_only w jid r w' :
  working w !! jid = Some r ->
  requeue_job jid w = (Ret tt, w') ->
  (exists r',
     working w' !! jid = Some r' /\
     status r' = queued /\
     user_id r' = user_id r /\
     image_url r' = image_url r /\
     image_hash r' = image_hash r /\
     retry_count r' = retry_count r /\
     result r' = result r /\
     processing_time r' = processing_time r /\
     error_message r' = error_message r /\
     created_at r' = created_at r /\
     completed_at r' = completed_at r) /\
  (forall j, j <> jid -> working w' !! j = working w !! j) /\
  committed w' = committed w /\
  (forall j'' r'', oldest_queued (working w') = Some (j'', r'') ->
                   created_at r'' <= created_at r) /\
  ((forall j' r', j' <> jid -> working w !! j' = Some r' ->
                  status r' = queued -> created_at r < created_at r') ->
   oldest_queued (working w') = Some (jid, set_status queued r)).
Proof.
  intros Hlk Hrun. apply requeue_job_Ret in Hrun as [Ec Ew].
  assert (working w' !! jid = Some (set_status queued r)) as Hnew
    by (by rewrite Ew, lookup_alter_eq, Hlk).
  assert (forall j, j <> jid -> working w' !! j = working w !! j) as Hother
    by (intros j Hj; by rewrite Ew, lookup_alter_ne).
  split; [exists (set_status queued r); repeat split; done|].
  split; [done|]. split; [done|].
  assert (forall j'' r'', oldest_queued (working w') = Some (j'', r'') ->
                          created_at r'' <= created_at r) as Hmin.
  { intros j'' r'' Hold. apply oldest_queued_Some in Hold as (_ & _ & Hmin).
    by apply (Hmin jid (set_status queued r)). }
  split; [done|].
  intros Holder.
  destruct (oldest_queued (working w')) as [[j rj]|] eqn:Hold.
  - pose proof (Hmin j rj eq_refl) as Hle.
    apply oldest_queued_Some in Hold as (Hj & Hq & _).
    destruct (decide (j = jid)) as [->|Hne]; [congruence|].
    rewrite (Hother j Hne) in Hj. specialize (Holder j rj Hne Hj Hq). lia.
  - exfalso. rewrite oldest_queued_None in Hold.
    by apply (Hold jid (set_status queued r)).
Qed.

Lemma C9_witness :
  (exists r',
     working (requeue_job "job-b" (claimed (sample_world (sample_table None)))).2
       !! "job-b" = Some r' /\
     status r' = queued /\
     user_id r' = user_id (sample_row processing None 3) /\
     image_url r' = image_url (sample_row processing None 3) /\
     image_hash r' = image_hash (sample_row processing None 3) /\
     retry_count r' = retry_count (sample_row processing None 3) /\
     result r' = result (sample_row processing None 3) /\
     processing_time r' = processing_time (sample_row processing None 3) /\
     error_message r' = error_message (sample_row processing None 3) /\
     created_at r' = created_at (sample_row processing None 3) /\
     completed_at r' = completed_at (sample_row processing None 3)) /\
  (forall j, j <> "job-b" ->
     working (requeue_job "job-b" (claimed (sample_world (sample_table None)))).2 !! j =
       working (claimed (sample_world (sample_table None))) !! j) /\
  committed (requeue_job "job-b" (claimed (sample_world (sample_table None)))).2 =
    committed (claimed (sample_world (sample_table None))) /\
  (forall j'' r'',
     oldest_queued
       (working (requeue_job "job-b" (claimed (sample_world (sample_table None)))).2) =
       Some (j'', r'') ->
     created_at r'' <= created_at (sample_row processing None 3)) /\
  ((forall j' r', j' <> "job-b" ->
      working (claimed (sample_world (sample_table None))) !! j' = Some r' ->
      status r' = queued ->
      created_at (sample_row processing None 3) < created_at r') ->
   oldest_queued
     (working (requeue_job "job-b" (claimed (sample_world (sample_table None)))).2) =
     Some ("job-b", set_status queued (sample_row processing None 3))).
Proof.
  apply (C9_requeue_changes_status_only (claimed (sample_world (sample_table None)))
           "job-b" (sample_row processing None 3)).
  - vm_compute. reflexivity.
  - vm_compute. reflexivity.
Defined.

(** ** The wake channel *)

Lemma new_events_app w w' evs :
  events w' = (events w ++ evs)%list -> new_events w w' = evs.
Proof. intros H. unfold new_events. rewrite H. apply drop_app_length. Qed.

(** [ocr_worker]'s [listen_for_jobs]: in notify mode the [try] block
    always raises, at [LISTEN] or at the lookup of [conn.notifies.get], so
    in either mode the function goes on to [time.sleep], sleeps
    [max(poll_interval_ms, 250)] milliseconds once and returns; it writes
    nothing. *)
Lemma OcrWorker_listen_for_jobs_run poll use_notify w :
  exists w',
    OcrWorker.listen_for_jobs poll use_notify w = (Ret tt, w') /\
    committed w' = committed w /\ working w' = working w /\
    new_events w w' = [EvSleep (Z.max poll 250)].
Proof.
  destruct w as [c t f cl dn nt vs ev].
  unfold OcrWorker.listen_for_jobs, bind, try_except, execute, storage_call,
    notifies_get, sleep, ret, raise.
  destruct use_notify; simpl.
  - destruct f as [|[e|] f]; simpl; eexists; (split; [reflexivity|]);
      (split; [reflexivity|]); (split; [reflexivity|]);
      by apply new_events_app.
  - eexists. split; [reflexivity|]. split; [reflexivity|].
    split; [reflexivity|]. by apply new_events_app.
Qed.

(** [kiro_ocr_worker]'s [listen_for_jobs] never returns: [LISTEN] raises,
    or [conn.poll()] does; both stand outside the [try].  No wait takes
    place and nothing is written. *)
Lemma Kiro_listen_for_jobs_run poll w :
  exists e w',
    Kiro.listen_for_jobs poll w = (Raise e, w') /\
    committed w' = committed w /\ working w' = working w /\
    new_events w w' = [].
Proof.
  destruct w as [c t f cl dn nt vs ev].
  unfold Kiro.listen_for_jobs, bind, try_except, execute, storage_call,
    conn_poll, notifies_get, ret, raise. simpl.
  destruct f as [|[e|] f]; simpl; do 2 eexists; (split; [reflexivity|]);
    (split; [reflexivity|]); (split; [reflexivity|]);
    apply new_events_app; simpl; by rewrite app_nil_r.
Qed.



(** In [ocr_worker] no failure of [LISTEN] or of [conn.notifies.get]
    leaves [listen_for_jobs]: it returns after the fallback sleep and the
    loop goes back to draining. *)
Lemma OcrWorker_listen_for_jobs_contains_failure poll use_notify drain w :
  exists w',
    OcrWorker.listen_for_jobs poll use_notify w = (Ret tt, w') /\
    loop_step drain (OcrWorker.listen_for_jobs poll use_notify) (Waiting, w)
      = (Draining, w').
Proof.
  destruct (OcrWorker_listen_for_jobs_run poll use_notify w)
    as (w' & H & _).
  exists w'. split; [done|]. simpl. by rewrite H.
Qed.

Lemma OcrWorker_listen_failure_falls_back poll e rest w :
  new_events (with_faults (Some e :: rest) w)
    (OcrWorker.listen_for_jobs poll true (with_faults (Some e :: rest) w)).2
  = [EvSleep (Z.max poll 250)].
Proof.
  destruct w as [c t f cl dn nt vs ev]. apply new_events_app. reflexivity.
Qed.

(** C8 on [kiro_ocr_worker]: [LISTEN] is executed outside the [try], so
    when the subscription raises, the exception leaves [listen_for_jobs]
    and ends [run]; no wait takes place and the loop does not go back to
    draining. *)
Theorem C8_kiro_listen_failure_ends_worker poll e rest w :
  Kiro.listen_for_jobs poll (with_faults (Some e :: rest) w) =
    (Raise e, with_faults rest w) /\
  new_events (with_faults (Some e :: rest) w) (with_faults rest w) = [] /\
  forall drain,
    loop_step drain (Kiro.listen_for_jobs poll)
              (Waiting, with_faults (Some e :: rest) w) =
      (Crashed e, with_faults rest w).
Proof.
  destruct w as [c t f cl dn nt vs ev].
  split; [reflexivity|]. split; [|reflexivity].
  apply new_events_app. simpl. by rewrite app_nil_r.
Qed.

(** ** Configuration *)

Lemma _get_int_invalid int_ env key v default :
  env !! key = Some v -> int_ v = None ->
  _get_int int_ env key default = default.
Proof. intros Hk Hv. unfold _get_int, getenv. by rewrite Hk, Hv. Qed.

Lemma getenv_empty env key :
  getenv env key EmptyString = EmptyString <-> env !! key = None \/ env !! key = Some EmptyString.
Proof.
  unfold getenv. destruct (env !! key) as [v|]; split; intros H.
  - right. by rewrite H.
  - destruct H as [H|H]; [discriminate | by inversion H].
  - by left.
  - done.
Qed.

Lemma str_or_empty a b :
  str_or a b = EmptyString <-> (a = None \/ a = Some EmptyString) /\ b = EmptyString.
Proof.
  unfold str_or. destruct a as [[|c v]|]; split; intros H.
  - split; [by right | done].
  - by destruct H.
  - discriminate.
  - destruct H as [[H|H] _]; discriminate.
  - split; [by left | done].
  - by destruct H.
Qed.

Lemma Kiro_load_config_raises int_ env :
  (exists e, Kiro.load_config int_ env = Raise e) <->
  getenv env "DATABASE_URL" EmptyString = EmptyString.
Proof.
  unfold Kiro.load_config.
  destruct (getenv env "DATABASE_URL" EmptyString) as [|c url]; split.
  - done.
  - intros _. eauto.
  - intros [e He]. discriminate.
  - discriminate.
Qed.

Lemma OcrWorker_load_config_raises int_ env :
  (exists e, OcrWorker.load_config int_ env = Raise e) <->
  str_or (env !! "DATABASE_URL")
    (str_or (env !! "SUPABASE_DB_URL") (str_or (env !! "POSTGRES_URL") EmptyString))
  = EmptyString.
Proof.
  unfold OcrWorker.load_config.
  destruct (str_or _ _) as [|c url]; split.
  - done.
  - intros _. eauto.
  - intros [e He]. discriminate.
  - discriminate.
Qed.

(** C10: whatever strings the builtin [int] accepts, a numeric variable
    whose value it rejects reads as its built-in default (5000, 3, 60000)
    and [load_config] returns; in both packages [load_config] raises
    exactly when the connection string is absent or empty, which in
    [ocr_worker] means that each of [DATABASE_URL], [SUPABASE_DB_URL] and
    [POSTGRES_URL] is. *)
Theorem C10_load_config_numeric_fallback (int_ : string -> option Z) env :
  let absent_or_empty := fun key => env !! key = None \/ env !! key = Some EmptyString in
  let invalid := fun key => exists v, env !! key = Some v /\ int_ v = None in
  ((exists e, Kiro.load_config int_ env = Raise e) <->
   absent_or_empty "DATABASE_URL") /\
  ((exists e, OcrWorker.load_config int_ env = Raise e) <->
   absent_or_empty "DATABASE_URL" /\ absent_or_empty "SUPABASE_DB_URL" /\
   absent_or_empty "POSTGRES_URL") /\
  (~ absent_or_empty "DATABASE_URL" ->
   exists cfg,
     Kiro.load_config int_ env = Ret cfg /\
     (invalid "WORKER_POLL_INTERVAL_MS" -> Kiro.poll_interval_ms cfg = 5000) /\
     (invalid "WORKER_MAX_RETRIES" -> Kiro.max_retries cfg = 3) /\
     (invalid "WORKER_PROCESSING_TIMEOUT_MS" ->
      Kiro.processing_timeout_ms cfg = 60000)) /\
  (~ (absent_or_empty "DATABASE_URL" /\ absent_or_empty "SUPABASE_DB_URL" /\
      absent_or_empty "POSTGRES_URL") ->
   exists cfg,
     OcrWorker.load_config int_ env = Ret cfg /\
     (invalid "WORKER_POLL_INTERVAL_MS" ->
      OcrWorker.poll_interval_ms cfg = 5000) /\
     (invalid "WORKER_MAX_RETRIES" -> OcrWorker.max_retries cfg = 3) /\
     (invalid "WORKER_PROCESSING_TIMEOUT_MS" ->
      OcrWorker.processing_timeout_ms cfg = 60000)).
Proof.
  intros absent_or_empty invalid.
  assert (((exists e, OcrWorker.load_config int_ env = Raise e) <->
           absent_or_empty "DATABASE_URL" /\
           absent_or_empty "SUPABASE_DB_URL" /\
           absent_or_empty "POSTGRES_URL")) as HO.
  { rewrite OcrWorker_load_config_raises, !str_or_empty.
    unfold absent_or_empty. tauto. }
  assert ((exists e, Kiro.load_config int_ env = Raise e) <->
          absent_or_empty "DATABASE_URL") as HK
    by (rewrite Kiro_load_config_raises; apply getenv_empty).
  split; [exact HK|]. split; [exact HO|]. split.
  - intros Hurl. rewrite <- HK in Hurl.
    destruct (Kiro.load_config int_ env) as [cfg|e] eqn:E;
      [|destruct Hurl; eauto].
    exists cfg. split; [done|].
    unfold Kiro.load_config in E.
    destruct (getenv env "DATABASE_URL" EmptyString); [discriminate|].
    inversion E; subst; simpl.
    repeat split; intros (v & Hv & Hbad); by apply (_get_int_invalid _ _ _ v).
  - intros Hurl. rewrite <- HO in Hurl.
    destruct (OcrWorker.load_config int_ env) as [cfg|e] eqn:E;
      [|destruct Hurl; eauto].
    exists cfg. split; [done|].
    unfold OcrWorker.load_config in E.
    destruct (str_or _ _); [discriminate|].
    inversion E; subst; simpl.
    repeat split; intros (v & Hv & Hbad); by apply (_get_int_invalid _ _ _ v).
Qed.

(** [tests/test_config.py]: with only [DATABASE_URL] set, the defaults.
    The values read are ASCII decimal text, which [py_int] reads as every
    [int] does. *)
Example test_load_config_defaults :
  OcrWorker.load_config py_int test_env =
    Ret (OcrWorker.mkWorkerConfig "postgresql://u:p@h:5432/db"
                                  5000 3 60000 false) /\
  Kiro.load_config py_int test_env =
    Ret (Kiro.mkWorkerConfig "postgresql://u:p@h:5432/db" 5000 3 60000).
Proof. vm_compute. split; reflexivity. Qed.

Example load_config_bad_retries :
  py_int "three" = None /\
  Kiro.load_config py_int bad_retries_env =
    Ret (Kiro.mkWorkerConfig "postgresql://u:p@h:5432/db" 5000 3 60000) /\
  (exists e, Kiro.load_config py_int ∅ = Raise e).
Proof. vm_compute. repeat split; try reflexivity. eauto. Qed.

(** ** The loop keeps the session clean *)

(** A cycle that returns has committed or rolled back all it wrote. *)
Lemma process_once_clean cfg w b w' :
  clean w -> Kiro.process_once cfg w = (Ret b, w') -> clean w'.
Proof.
  unfold clean. intros Hclean Hrun.
  destruct (try_claim_queued_job w) as [[[job|]|e] w1] eqn:Hclaim.
  - rewrite (process_once_claimed _ _ _ _ Hclaim) in Hrun.
    destruct (Kiro.attempt cfg job w1) as [[[]|e] w2] eqn:Hatt.
    + inversion Hrun; subst. unfold Kiro.attempt in Hatt.
      apply bind_Ret_inv in Hatt as (start & w1' & _ & Hatt).
      by apply process_once_try_Ret in Hatt as (? & ? & _ & ? & _).
    + rewrite process_once_except_run in Hrun.
      destruct (rollback w2) as [[[]|e1] w2'] eqn:Hrb1; [|discriminate].
      destruct (Kiro.retry_decision cfg job e w2') as [[[]|e'] w3] eqn:Hdec.
      * inversion Hrun; subst.
        by apply retry_decision_Ret in Hdec as [? _].
      * destruct (rollback w3) as [[[]|e2] w4] eqn:Hrb2; [|discriminate].
        inversion Hrun; subst.
        apply rollback_Ret in Hrb2 as [-> ->]. done.
  - rewrite (process_once_unclaimed _ _ _ Hclaim) in Hrun.
    inversion Hrun; subst.
    apply try_claim_queued_job_Ret in Hclaim as (-> & _ & ->). done.
  - rewrite (process_once_claim_raises _ _ _ _ Hclaim) in Hrun. discriminate.
Qed.

Lemma Kiro_listen_for_jobs_tables poll w :
  committed (Kiro.listen_for_jobs poll w).2 = committed w /\
  working (Kiro.listen_for_jobs poll w).2 = working w.
Proof.
  destruct (Kiro_listen_for_jobs_run poll w) as (e & w' & -> & Hc & Hw & _).
  done.
Qed.

Lemma run_step_clean cfg st :
  clean_while_running st -> clean_while_running (Kiro.run_step cfg st).
Proof.
  destruct st as [[| |e] w]; unfold clean_while_running; simpl; intros Hclean.
  - destruct (Kiro.process_once cfg w) as [[b|e] w'] eqn:Hrun.
    + apply (process_once_clean _ _ _ _ Hclean) in Hrun. by destruct b.
    + done.
  - destruct (Kiro_listen_for_jobs_tables (Kiro.poll_interval_ms cfg) w)
      as [Hc Hw].
    destruct (Kiro.listen_for_jobs (Kiro.poll_interval_ms cfg) w)
      as [[[]|e] w']; unfold clean in *; simpl in *; [congruence | done].
  - done.
Qed.

Lemma run_steps_clean cfg n st :
  clean_while_running st -> clean_while_running (Kiro.run_steps cfg n st).
Proof.
  revert st. induction n as [|n IH]; intros st Hclean; [done|].
  unfold Kiro.run_steps. simpl. apply IH. by apply run_step_clean.
Qed.

(** * Further properties of the code *)

(** ** Components of the world a call leaves alone *)

Lemma stable_ret {X A : Type} (f : World -> X) (a : A) : stable f (ret a).
Proof. intros w. reflexivity. Qed.

Lemma stable_bind {X A B : Type} (f : World -> X) (m : M A) (k : A -> M B) :
  stable f m -> (forall a, stable f (k a)) -> stable f (bind m k).
Proof.
  intros Hm Hk w. unfold bind. specialize (Hm w).
  destruct (m w) as [[a|e] w1]; simpl in *; [|done].
  by rewrite Hk.
Qed.

Lemma stable_try {X A : Type} (f : World -> X) (body : M A)
      (h : PyExn -> M A) :
  stable f body -> (forall e, stable f (h e)) -> stable f (try_except body h).
Proof.
  intros Hb Hh w. unfold try_except. specialize (Hb w).
  destruct (body w) as [[a|e] w1]; simpl in *; [done|].
  by rewrite Hh.
Qed.

Lemma stable_events_storage_call : stable events storage_call.
Proof. intros w. unfold storage_call. by destruct (faults w) as [|[e|] rest]. Qed.

Lemma stable_events_execute {A : Type} (stmt : table -> table * option A) :
  stable events (execute stmt).
Proof.
  apply stable_bind; [apply stable_events_storage_call|].
  intros _ w. by destruct (stmt (working w)).
Qed.

Lemma stable_events_commit : stable events commit.
Proof. apply stable_bind; [apply stable_events_storage_call|]. by intros _ w. Qed.

Lemma stable_events_rollback : stable events rollback.
Proof. apply stable_bind; [apply stable_events_storage_call|]. by intros _ w. Qed.

Lemma stable_events_time_ms : stable events time_ms.
Proof. intros w. unfold time_ms. by destruct (clock w). Qed.

Lemma stable_events_vision img : stable events (run_document_text_detection img).
Proof. intros w. unfold run_document_text_detection. by destruct (vision w). Qed.

Lemma stable_events_try_claim : stable events try_claim_queued_job.
Proof.
  apply stable_bind; [apply stable_events_execute|].
  intros [[[[[[? ?] ?] ?] ?] ?]|]; apply stable_ret.
Qed.

Lemma stable_events_mark_completed jid text ms conf :
  stable events (mark_completed jid text ms conf).
Proof.
  apply stable_bind; [by intros w|]. intros now.
  apply stable_bind; [apply stable_events_execute|]. intros; apply stable_ret.
Qed.

Lemma stable_events_retry_decision cfg job e :
  stable events (Kiro.retry_decision cfg job e).
Proof.
  apply stable_bind.
  { apply stable_bind; [apply stable_events_execute|]. intros; apply stable_ret. }
  intros n. apply stable_bind; [|intros; apply stable_events_commit].
  destruct (n >=? Kiro.max_retries cfg);
    (apply stable_bind; [apply stable_events_execute|]; intros; apply stable_ret).
Qed.

Lemma stable_events_process_once_except cfg job e :
  stable events (Kiro.process_once_except cfg job e).
Proof.
  apply stable_bind; [apply stable_events_rollback|]. intros _.
  apply stable_try; [apply stable_events_retry_decision|].
  intros; apply stable_events_rollback.
Qed.

Lemma fetch_image_bytes_events url ms w :
  events (fetch_image_bytes url ms w).2 =
    (events w ++ [EvFetch url (Z.max ms 1000)])%list.
Proof. unfold fetch_image_bytes. simpl. by destruct (net w). Qed.

(** Whether it returns or raises, an attempt makes exactly one download
    and no sleep. *)
Lemma process_once_try_events cfg job start w :
  events (Kiro.process_once_try cfg job start w).2 =
    (events w ++ [EvFetch (job_image_url job)
                          (Z.max (Kiro.processing_timeout_ms cfg) 1000)])%list.
Proof.
  unfold Kiro.process_once_try, bind at 1.
  pose proof (fetch_image_bytes_events (job_image_url job)
                (Kiro.processing_timeout_ms cfg) w) as Hf.
  destruct (fetch_image_bytes _ _ w) as [[img|e] w1]; simpl in *; [|done].
  rewrite <- Hf.
  assert (stable events
            (tc <- run_document_text_detection img ;;
             let '(text, conf) := tc in
             now <- time_ms ;;
             let elapsed := now - start in
             mark_completed (id job) text elapsed conf ;; commit)) as Hs.
  { apply stable_bind; [apply stable_events_vision|]. intros [text conf].
    apply stable_bind; [apply stable_events_time_ms|]. intros now.
    apply stable_bind; [apply stable_events_mark_completed|].
    intros; apply stable_events_commit. }
  apply Hs.
Qed.

(** ** What leaves the settlement of a failed attempt *)

(** The settlement raises only when one of its two rollbacks does. *)
Lemma process_once_except_Raise cfg job e w2 e2 w' :
  Kiro.process_once_except cfg job e w2 = (Raise e2, w') ->
  rollback w2 = (Raise e2, w') \/
  exists w2' e1 w3,
    rollback w2 = (Ret tt, w2') /\
    Kiro.retry_decision cfg job e w2' = (Raise e1, w3) /\
    rollback w3 = (Raise e2, w').
Proof.
  rewrite process_once_except_run.
  destruct (rollback w2) as [[[]|e1] w2'] eqn:Hrb1; [|intros H; by left].
  destruct (Kiro.retry_decision cfg job e w2') as [[[]|e1] w3] eqn:Hdec;
    [discriminate|].
  intros H. right. by exists w2', e1, w3.
Qed.

(** Once a job is claimed, [process_once] returns [True] if it returns. *)
Lemma process_once_claimed_Ret cfg w job w1 b w' :
  try_claim_queued_job w = (Ret (Some job), w1) ->
  Kiro.process_once cfg w = (Ret b, w') -> b = true.
Proof.
  intros Hclaim Hrun. rewrite (process_once_claimed _ _ _ _ Hclaim) in Hrun.
  destruct (Kiro.attempt cfg job w1) as [[[]|e] w2]; [congruence|].
  destruct (Kiro.process_once_except cfg job e w2) as [[[]|e'] w3];
    congruence.
Qed.

Lemma next_served_head w :
  next_served w = true <-> forall e, head (faults w) <> Some (Some e).
Proof.
  unfold next_served. destruct (faults w) as [|[e|] rest]; simpl; split;
    try done.
  intros H. by destruct (H e).
Qed.

Lemma storage_call_served w :
  next_served w = true -> exists w', storage_call w = (Ret tt, w').
Proof.
  unfold next_served, storage_call.
  destruct (faults w) as [|[e|] rest]; intros H; try discriminate; eauto.
Qed.

Lemma execute_served {A : Type} (stmt : table -> table * option A) w :
  next_served w = true ->
  exists w', execute stmt w = (Ret (stmt (working w)).2, w') /\
             working w' = (stmt (working w)).1 /\
             committed w' = committed w.
Proof.
  intros H. destruct (storage_call_served w H) as [w1 H1].
  destruct (execute stmt w) as [[row|e] w'] eqn:E.
  - apply execute_Ret in E as (Ec & Ew & ->). eauto.
  - exfalso. unfold execute in E. rewrite (bind_Ret _ _ _ _ _ H1) in E.
    destruct (stmt (working w1)); discriminate.
Qed.

Lemma try_claim_queued_job_served w :
  next_served w = true ->
  exists res w', try_claim_queued_job w = (Ret res, w').
Proof.
  intros H. destruct (execute_served claim_statement w H) as (w1 & H1 & _).
  unfold try_claim_queued_job. rewrite (bind_Ret _ _ _ _ _ H1).
  destruct ((claim_statement (working w)).2)
    as [[[[[[? ?] ?] ?] ?] ?]|]; eauto.
Qed.

(** ** [process_once]: what reaches the loop *)

(** X1: an exception leaves [process_once] only from the claim statement
    or from one of the two [conn.rollback()] of the [except] clauses, and
    it is then the exception that call raised.  Whatever the download, the
    text detection, [mark_completed], [increment_retry], [mark_failed],
    [requeue_job] or a [conn.commit()] raise is caught. *)
Theorem process_once_raises_only_from_claim_or_rollback cfg w e w' :
  Kiro.process_once cfg w = (Raise e, w') ->
  try_claim_queued_job w = (Raise e, w') \/
  exists job w1 e0 w2,
    try_claim_queued_job w = (Ret (Some job), w1) /\
    Kiro.attempt cfg job w1 = (Raise e0, w2) /\
    (rollback w2 = (Raise e, w') \/
     exists w2' e1 w3,
       rollback w2 = (Ret tt, w2') /\
       Kiro.retry_decision cfg job e0 w2' = (Raise e1, w3) /\
       rollback w3 = (Raise e, w')).
Proof.
  intros Hrun.
  destruct (try_claim_queued_job w) as [[[job|]|e0] w1] eqn:Hclaim.
  - right. rewrite (process_once_claimed _ _ _ _ Hclaim) in Hrun.
    destruct (Kiro.attempt cfg job w1) as [[[]|e0] w2] eqn:Hatt;
      [discriminate|].
    exists job, w1, e0, w2. split; [done|]. split; [done|].
    apply process_once_except_Raise.
    destruct (Kiro.process_once_except cfg job e0 w2) as [[[]|e'] w3];
      [discriminate | by inversion Hrun].
  - rewrite (process_once_unclaimed _ _ _ Hclaim) in Hrun. discriminate.
  - left. rewrite (process_once_claim_raises _ _ _ _ Hclaim) in Hrun.
    by inversion Hrun.
Qed.

Lemma process_once_raises_only_from_claim_or_rollback_witness :
  try_claim_queued_job world_connection_lost =
    (Raise db_down, (Kiro.process_once sample_cfg world_connection_lost).2) \/
  exists job w1 e0 w2,
    try_claim_queued_job world_connection_lost = (Ret (Some job), w1) /\
    Kiro.attempt sample_cfg job w1 = (Raise e0, w2) /\
    (rollback w2 =
       (Raise db_down, (Kiro.process_once sample_cfg world_connection_lost).2)
     \/
     exists w2' e1 w3,
       rollback w2 = (Ret tt, w2') /\
       Kiro.retry_decision sample_cfg job e0 w2' = (Raise e1, w3) /\
       rollback w3 =
         (Raise db_down,
          (Kiro.process_once sample_cfg world_connection_lost).2)).
Proof.
  apply (process_once_raises_only_from_claim_or_rollback sample_cfg
           world_connection_lost db_down).
  vm_compute. reflexivity.
Defined.

(** X2: [process_once] returns [False] exactly when no row is queued, and
    then it has changed neither table and made no download and no sleep. *)
Theorem process_once_false_iff_nothing_queued cfg w b w' :
  Kiro.process_once cfg w = (Ret b, w') ->
  (b = false <->
   forall j r, working w !! j = Some r -> status r <> queued) /\
  (b = false ->
   committed w' = committed w /\ working w' = working w /\
   new_events w w' = []).
Proof.
  intros Hrun.
  destruct (try_claim_queued_job w) as [[[job|]|e] w1] eqn:Hclaim.
  - assert (b = true) as ->
      by exact (process_once_claimed_Ret _ _ _ _ _ _ Hclaim Hrun).
    apply try_claim_queued_job_Ret in Hclaim as (_ & r & Hold & _).
    apply oldest_queued_Some in Hold as (Hlk & Hq & _).
    split; [|done]. split; [done|]. intros H. by destruct (H _ _ Hlk).
  - rewrite (process_once_unclaimed _ _ _ Hclaim) in Hrun.
    inversion Hrun; subst; clear Hrun.
    pose proof (stable_events_try_claim w) as Hev. rewrite Hclaim in Hev.
    apply try_claim_queued_job_Ret in Hclaim as (Ec & Hold & Ew).
    rewrite oldest_queued_None in Hold.
    split; [by split|]. intros _. split; [done|]. split; [done|].
    apply new_events_app. simpl in Hev. by rewrite Hev, app_nil_r.
  - rewrite (process_once_claim_raises _ _ _ _ Hclaim) in Hrun. discriminate.
Qed.

Lemma process_once_false_iff_nothing_queued_witness :
  (false = false <->
   forall j r,
     working (sample_world (<["job-c" := sample_row failed (Some 3) 1]> ∅))
       !! j = Some r -> status r <> queued) /\
  (false = false ->
   committed
     (Kiro.process_once sample_cfg
        (sample_world (<["job-c" := sample_row failed (Some 3) 1]> ∅))).2 =
     committed (sample_world (<["job-c" := sample_row failed (Some 3) 1]> ∅))
   /\
   working
     (Kiro.process_once sample_cfg
        (sample_world (<["job-c" := sample_row failed (Some 3) 1]> ∅))).2 =
     working (sample_world (<["job-c" := sample_row failed (Some 3) 1]> ∅))
   /\
   new_events
     (sample_world (<["job-c" := sample_row failed (Some 3) 1]> ∅))
     (Kiro.process_once sample_cfg
        (sample_world (<["job-c" := sample_row failed (Some 3) 1]> ∅))).2
   = []).
Proof.
  apply (process_once_false_iff_nothing_queued sample_cfg
           (sample_world (<["job-c" := sample_row failed (Some 3) 1]> ∅))).
  vm_compute. reflexivity.
Defined.

(** X3: a claim statement that raises is not caught anywhere: the
    exception leaves [process_once] and ends [run], with nothing
    changed. *)
Theorem claim_failure_ends_worker cfg e rest w :
  Kiro.process_once cfg (with_faults (Some e :: rest) w) =
    (Raise e, with_faults rest w) /\
  Kiro.run_step cfg (Draining, with_faults (Some e :: rest) w) =
    (Crashed e, with_faults rest w) /\
  committed (with_faults rest w) = committed w /\
  working (with_faults rest w) = working w.
Proof.
  assert (try_claim_queued_job (with_faults (Some e :: rest) w) =
            (Raise e, with_faults rest w)) as Hclaim
    by (destruct w; reflexivity).
  pose proof (process_once_claim_raises cfg _ _ _ Hclaim) as Hrun.
  split; [done|]. split; [|done].
  unfold Kiro.run_step, loop_step. by rewrite Hrun.
Qed.

(** ** What a cycle commits *)

Lemma alter_alter_insert (t : table) k r (f g : Row -> Row) :
  t !! k = Some r -> alter f k (alter g k t) = <[k := f (g r)]> t.
Proof.
  intros Hk. apply map_eq. intros j. destruct (decide (j = k)) as [->|Hne].
  - by rewrite !lookup_alter_eq, Hk, lookup_insert_eq.
  - by rewrite !lookup_alter_ne, lookup_insert_ne.
Qed.

Lemma process_once_cycle_cases cfg w :
  clean w ->
  committed (Kiro.process_once cfg w).2 = committed w \/
  exists jid r0 r',
    oldest_queued (committed w) = Some (jid, r0) /\
    committed (Kiro.process_once cfg w).2 = <[jid := r']> (committed w) /\
    cycle_outcome cfg (db_now w) r0 r'.
Proof.
  intros Hclean. unfold clean in Hclean.
  destruct (try_claim_queued_job w) as [[[job|]|e] w1] eqn:Hclaim.
  - pose proof (try_claim_queued_job_env _ _ _ Hclaim) as (_ & _ & En1).
    pose proof Hclaim as Hclaim'.
    apply try_claim_queued_job_Ret in Hclaim' as (Ec1 & r0 & Hold & Ew1 & _).
    rewrite Hclean in Hold, Ew1.
    pose proof (oldest_queued_Some _ _ _ Hold) as (Hlk & _ & _).
    destruct (Kiro.attempt cfg job w1) as [[[]|e] w2] eqn:Hatt.
    + right. exists (id job), r0.
      rewrite (process_once_claimed _ _ _ _ Hclaim), Hatt. simpl.
      unfold Kiro.attempt in Hatt.
      apply bind_Ret_inv in Hatt as (start & w1' & H1 & Hatt).
      apply time_ms_run in H1 as (_ & _ & _ & En2 & _ & Ew2).
      apply process_once_try_Ret in Hatt as (text & conf & _ & _ & Ec).
      rewrite Ew2, Ew1, En2, En1 in Ec.
      rewrite (alter_alter_insert _ _ _ _ _ Hlk) in Ec.
      exists (set_completed
                (result_envelope text (hd 0 (clock w1') - start) conf)
                (hd 0 (clock w1') - start) (db_now w) r0).
      split; [done|]. split; [exact Ec|]. apply outcome_completed.
    + destruct (failed_attempt_state _ _ _ _ _ _ Hclean Hclaim Hatt)
        as (Ec2 & _).
      destruct ((rollback w2).1) as [[]|e1] eqn:Hrb.
      2:{ left.
          rewrite (process_once_first_rollback_raises _ _ _ _ _ _ e1
                     (rollback w2).2 Hclaim Hatt)
            by (by rewrite (surjective_pairing (rollback w2)), Hrb).
          simpl. rewrite rollback_committed. exact Ec2. }
      destruct (Kiro.retry_decision cfg job e (rollback w2).2)
        as [[[]|e'] w3] eqn:Hdec.
      * right. exists (id job), r0.
        rewrite (process_once_settled _ _ _ _ _ _ _ Hclaim Hatt Hrb Hdec).
        simpl.
        apply retry_decision_Ret in Hdec as [_ Hc3]. cbv zeta in Hc3.
        rewrite (rollback_served _ Hrb) in Hc3.
        rewrite Ec2, Hlk in Hc3.
        rewrite (alter_alter_insert _ _ _ _ _ Hlk) in Hc3.
        eexists. split; [done|]. split; [exact Hc3|].
        destruct (COALESCE (retry_count r0) 0 + 1 >=? Kiro.max_retries cfg)
          eqn:Hge; rewrite Z.geb_leb in Hge.
        -- apply outcome_failed. by apply Z.leb_le.
        -- apply outcome_requeued. by apply Z.leb_gt.
      * left.
        rewrite (process_once_unsettled _ _ _ _ _ _ _ _ Hclaim Hatt Hrb Hdec).
        apply retry_decision_Raise in Hdec.
        rewrite rollback_committed in Hdec.
        pose proof (rollback_committed w3) as Hc3.
        destruct (rollback w3) as [[[]|e2] w4]; simpl in *; congruence.
  - left. rewrite (process_once_unclaimed _ _ _ Hclaim). simpl.
    by apply try_claim_queued_job_Ret in Hclaim as (? & _).
  - left. rewrite (process_once_claim_raises _ _ _ _ Hclaim). simpl.
    by apply try_claim_queued_job_Raise in Hclaim as (? & _).
Qed.



(** ** Invariants of the loop *)

Lemma row_step_refl r : row_step r r.
Proof. unfold row_step. repeat split; lia. Qed.

Lemma row_step_trans r1 r2 r3 :
  row_step r1 r2 -> row_step r2 r3 -> row_step r1 r3.
Proof.
  unfold row_step. intros (?&?&?&?&?) (?&?&?&?&?).
  repeat split; try congruence. lia.
Qed.

Lemma cycle_outcome_row_step cfg now r0 r' :
  cycle_outcome cfg now r0 r' -> row_step r0 r'.
Proof.
  intros [text conf ms | Hlt | e Hge]; unfold row_step; simpl;
    repeat split; lia.
Qed.

Lemma cycle_outcome_not_processing cfg now r0 r' :
  cycle_outcome cfg now r0 r' -> status r' <> processing.
Proof. by intros [text conf ms | Hlt | e Hge]. Qed.

Lemma table_step_refl t : table_step t t.
Proof. intros j. destruct (t !! j); [apply row_step_refl | done]. Qed.

Lemma table_step_trans t1 t2 t3 :
  table_step t1 t2 -> table_step t2 t3 -> table_step t1 t3.
Proof.
  intros H12 H23 j. specialize (H12 j). specialize (H23 j).
  destruct (t1 !! j), (t2 !! j), (t3 !! j); try done.
  by eapply row_step_trans.
Qed.

Lemma table_step_insert (t : table) j r r' :
  t !! j = Some r -> row_step r r' -> table_step t (<[j := r']> t).
Proof.
  intros Hj Hstep k. destruct (decide (k = j)) as [->|Hne].
  - by rewrite Hj, lookup_insert_eq.
  - rewrite lookup_insert_ne by done.
    destruct (t !! k); [apply row_step_refl | done].
Qed.

Lemma process_once_table_step cfg w :
  clean w -> table_step (committed w) (committed (Kiro.process_once cfg w).2).
Proof.
  intros Hclean.
  destruct (process_once_cycle_cases cfg w Hclean)
    as [-> | (jid & r0 & r' & Hold & -> & Hout)]; [apply table_step_refl|].
  apply oldest_queued_Some in Hold as (Hlk & _ & _).
  eapply table_step_insert; [done|]. by eapply cycle_outcome_row_step.
Qed.

Lemma clean_running ph w : clean w -> clean_while_running (ph, w).
Proof. intros H. by destruct ph. Qed.

(** A relation between committed tables that every cycle respects holds
    across any number of steps of the loop. *)
Lemma run_steps_committed (R : table -> table -> Prop) cfg :
  (forall t, R t t) ->
  (forall t1 t2 t3, R t1 t2 -> R t2 t3 -> R t1 t3) ->
  (forall w, clean w ->
             R (committed w) (committed (Kiro.process_once cfg w).2)) ->
  forall n st,
    clean_while_running st ->
    R (committed st.2) (committed (Kiro.run_steps cfg n st).2).
Proof.
  intros Hrefl Htrans Hcycle.
  assert (forall st, clean_while_running st ->
            R (committed st.2) (committed (Kiro.run_step cfg st).2)) as Hstep.
  { intros [[| |e] w] Hc; unfold clean_while_running in Hc; simpl in *.
    - pose proof (Hcycle w Hc) as H.
      by destruct (Kiro.process_once cfg w) as [[[|]|e] w'].
    - destruct (Kiro_listen_for_jobs_tables (Kiro.poll_interval_ms cfg) w)
        as [Ec _].
      destruct (Kiro.listen_for_jobs (Kiro.poll_interval_ms cfg) w)
        as [[[]|e] w']; simpl in *; rewrite Ec; apply Hrefl.
    - apply Hrefl. }
  induction n as [|n IH]; intros st Hc; [apply Hrefl|].
  unfold Kiro.run_steps in *. simpl.
  eapply Htrans; [by apply Hstep|].
  apply IH. by apply run_step_clean.
Qed.

Lemma no_new_processing_insert (t : table) j r' :
  status r' <> processing -> no_new_processing t (<[j := r']> t).
Proof.
  intros Hst k r Hk Hp. destruct (decide (k = j)) as [->|Hne].
  - rewrite lookup_insert_eq in Hk. congruence.
  - by rewrite lookup_insert_ne in Hk.
Qed.

(** X6: over any number of steps of the loop, whatever the outside world
    does, no row appears or disappears, no row changes its [user_id],
    [image_url], [image_hash] or [created_at], and no retry counter goes
    down (null counting as zero). *)
Theorem run_keeps_rows_and_counters cfg n ph w :
  clean w ->
  (forall j, is_Some (committed (Kiro.run_steps cfg n (ph, w)).2 !! j) <->
             is_Some (committed w !! j)) /\
  (forall j r r',
     committed w !! j = Some r ->
     committed (Kiro.run_steps cfg n (ph, w)).2 !! j = Some r' ->
     user_id r' = user_id r /\
     image_url r' = image_url r /\
     image_hash r' = image_hash r /\
     created_at r' = created_at r /\
     COALESCE (retry_count r) 0 <= COALESCE (retry_count r') 0).
Proof.
  intros Hclean.
  pose proof (run_steps_committed table_step cfg table_step_refl
                table_step_trans (process_once_table_step cfg) n (ph, w)
                (clean_running ph w Hclean)) as H.
  simpl in H. split.
  - intros j. specialize (H j).
    destruct (committed w !! j),
      (committed (Kiro.run_steps cfg n (ph, w)).2 !! j); try done;
      try (split; intros [? [=]]).
  - intros j r r' Hr Hr'. specialize (H j). by rewrite Hr, Hr' in H.
Qed.

Lemma run_keeps_rows_and_counters_witness :
  (forall j,
     is_Some (committed
                (Kiro.run_steps sample_cfg 5
                   (Draining, world_fetch_fails (Some 1))).2 !! j) <->
     is_Some (committed (world_fetch_fails (Some 1)) !! j)) /\
  (forall j r r',
     committed (world_fetch_fails (Some 1)) !! j = Some r ->
     committed
       (Kiro.run_steps sample_cfg 5
          (Draining, world_fetch_fails (Some 1))).2 !! j = Some r' ->
     user_id r' = user_id r /\
     image_url r' = image_url r /\
     image_hash r' = image_hash r /\
     created_at r' = created_at r /\
     COALESCE (retry_count r) 0 <= COALESCE (retry_count r') 0).
Proof.
  apply (run_keeps_rows_and_counters sample_cfg 5 Draining
           (world_fetch_fails (Some 1))).
  reflexivity.
Defined.

(** X7: the worker never persists the status [processing]: after any
    number of steps, a committed row that is [processing] is a row that
    was committed so, unchanged, before the first step. *)
Theorem run_never_commits_processing cfg n ph w j r' :
  clean w ->
  committed (Kiro.run_steps cfg n (ph, w)).2 !! j = Some r' ->
  status r' = processing ->
  committed w !! j = Some r'.
Proof.
  intros Hclean.
  assert (forall t, no_new_processing t t) as Hrefl by (by intros t k r).
  assert (forall t1 t2 t3, no_new_processing t1 t2 ->
            no_new_processing t2 t3 -> no_new_processing t1 t3) as Htrans.
  { intros t1 t2 t3 H12 H23 k r Hk Hp. apply H12; [|done]. by apply H23. }
  assert (forall w0, clean w0 ->
            no_new_processing (committed w0)
              (committed (Kiro.process_once cfg w0).2)) as Hcycle.
  { intros w0 Hc.
    destruct (process_once_cycle_cases cfg w0 Hc)
      as [-> | (jid & r0 & r1 & _ & -> & Hout)]; [apply Hrefl|].
    apply no_new_processing_insert.
    by eapply cycle_outcome_not_processing. }
  apply (run_steps_committed no_new_processing cfg Hrefl Htrans Hcycle n
           (ph, w) (clean_running ph w Hclean)).
Qed.

Lemma run_never_commits_processing_witness :
  committed (with_net [Raise http_404] (sample_world stuck_table)) !! "job-p"
    = Some (sample_row processing (Some 1) 2).
Proof.
  apply (run_never_commits_processing sample_cfg 3 Draining
           (with_net [Raise http_404] (sample_world stuck_table)) "job-p"
           (sample_row processing (Some 1) 2)).
  - reflexivity.
  - vm_compute. reflexivity.
  - reflexivity.
Defined.

(** X8: a row that is not [queued], be it [completed], [failed] or
    [processing], is never changed by any number of steps of the loop,
    in the session or as committed: the two final statuses are final, and
    a job left in [processing] is never picked up again by this worker. *)
Theorem run_never_touches_settled_rows cfg n ph w j r :
  status r <> queued ->
  committed w !! j = Some r ->
  working w !! j = Some r ->
  committed (Kiro.run_steps cfg n (ph, w)).2 !! j = Some r /\
  working (Kiro.run_steps cfg n (ph, w)).2 !! j = Some r.
Proof.
  intros Hnq Hc Hw.
  exact (run_steps_keeps cfg j r n (ph, w) Hnq (conj Hc Hw)).
Qed.

Lemma run_never_touches_settled_rows_witness :
  committed
    (Kiro.run_steps sample_cfg 7
       (Draining, world_fetch_fails (Some 1))).2 !! "job-c" =
    Some (sample_row failed (Some 3) 1) /\
  working
    (Kiro.run_steps sample_cfg 7
       (Draining, world_fetch_fails (Some 1))).2 !! "job-c" =
    Some (sample_row failed (Some 3) 1).
Proof.
  apply (run_never_touches_settled_rows sample_cfg 7 Draining
           (world_fetch_fails (Some 1)) "job-c"
           (sample_row failed (Some 3) 1)).
  - simpl. discriminate.
  - vm_compute. reflexivity.
  - vm_compute. reflexivity.
Defined.

(** ** The retry budget *)

Lemma only_queued_spec j c (t : table) :
  only_queued j c t = true -> sole_queued j c t.
Proof.
  unfold only_queued, sole_queued. intros H.
  apply andb_prop in H as [H1 H2]. split.
  - destruct (t !! j) as [r|]; [|discriminate].
    apply andb_prop in H1 as [Hq Hc]. exists r.
    split; [done|]. split; [by apply Status_eqb_eq | by apply Z.eqb_eq].
  - intros j' r' Hne Hj' Hq. rewrite forallb_forall in H2.
    assert (In (j', r') (map_to_list t)) as Hin
      by (apply list_elem_of_In; by apply elem_of_map_to_list).
    specialize (H2 _ Hin). simpl in H2.
    apply orb_prop in H2 as [H2|H2].
    + by apply String.eqb_eq in H2.
    + apply Status_eqb_eq in Hq. by rewrite Hq in H2.
Qed.

Lemma quiet_next_served w : quiet w -> next_served w = true.
Proof.
  intros [Hf _]. unfold no_faults in Hf. unfold next_served.
  by destruct (faults w) as [|[e|] rest].
Qed.

Lemma returns_quietly_ret {A : Type} (a : A) : returns_quietly (ret a).
Proof. intros w Hq. split; [done | by exists a]. Qed.

Lemma returns_quietly_bind {A B : Type} (m : M A) (k : A -> M B) :
  returns_quietly m -> (forall a, returns_quietly (k a)) ->
  returns_quietly (bind m k).
Proof.
  intros Hm Hk. eapply hoare_bind; [exact Hm| |].
  - intros a w [Hq _]. by apply Hk.
  - intros e w [_ [a H]]. discriminate.
Qed.

Lemma returns_quietly_storage_call : returns_quietly storage_call.
Proof.
  intros w [Hf Hn]. unfold storage_call, no_faults in *.
  destruct (faults w) as [|[e|] rest] eqn:E; simpl in *; try discriminate.
  - split; [|by exists tt]. split; [unfold no_faults; by rewrite E | done].
  - split; [|by exists tt]. by split.
Qed.

Lemma returns_quietly_execute {A : Type} (stmt : table -> table * option A) :
  returns_quietly (execute stmt).
Proof.
  apply returns_quietly_bind; [apply returns_quietly_storage_call|].
  intros _ w Hq. destruct (stmt (working w)) as [t' row].
  split; [exact Hq | by exists row].
Qed.

Lemma returns_quietly_commit : returns_quietly commit.
Proof.
  apply returns_quietly_bind; [apply returns_quietly_storage_call|].
  intros _ w Hq. split; [exact Hq | by exists tt].
Qed.

Lemma returns_quietly_rollback : returns_quietly rollback.
Proof.
  apply returns_quietly_bind; [apply returns_quietly_storage_call|].
  intros _ w Hq. split; [exact Hq | by exists tt].
Qed.

Lemma returns_quietly_time_ms : returns_quietly time_ms.
Proof.
  intros w Hq. unfold time_ms.
  destruct (clock w) as [|t rest]; (split; [exact Hq | eauto]).
Qed.

Lemma returns_quietly_try_claim : returns_quietly try_claim_queued_job.
Proof.
  apply returns_quietly_bind; [apply returns_quietly_execute|].
  intros [[[[[[? ?] ?] ?] ?] ?]|]; apply returns_quietly_ret.
Qed.

Lemma returns_quietly_retry_decision cfg job e :
  returns_quietly (Kiro.retry_decision cfg job e).
Proof.
  apply returns_quietly_bind.
  { apply returns_quietly_bind; [apply returns_quietly_execute|].
    intros; apply returns_quietly_ret. }
  intros n. apply returns_quietly_bind; [|intros; apply returns_quietly_commit].
  destruct (n >=? Kiro.max_retries cfg);
    (apply returns_quietly_bind; [apply returns_quietly_execute|];
     intros; apply returns_quietly_ret).
Qed.

Lemma attempt_raises_quietly cfg job w :
  quiet w ->
  exists e w', Kiro.attempt cfg job w = (Raise e, w') /\ quiet w'.
Proof.
  intros Hq. pose proof (returns_quietly_time_ms w Hq) as [Hq1 [t Ht]].
  destruct (time_ms w) as [o w1] eqn:E. simpl in *. subst o.
  unfold Kiro.attempt. rewrite (bind_Ret _ _ _ _ _ E).
  unfold Kiro.process_once_try, bind at 1, fetch_image_bytes.
  destruct Hq1 as [Hf Hn]. unfold net_down in Hn. simpl.
  destruct (net w1) as [|[img|e] rest] eqn:En; simpl in *; try discriminate.
  - eexists _, _. split; [reflexivity|].
    split; [exact Hf | unfold net_down; simpl; by rewrite En].
  - eexists _, _. split; [reflexivity|]. by split.
Qed.

Lemma process_once_drained cfg w :
  next_served w = true ->
  (forall j r, working w !! j = Some r -> status r <> queued) ->
  exists w', Kiro.process_once cfg w = (Ret false, w').
Proof.
  intros Hs Hnone.
  destruct (try_claim_queued_job_served w Hs) as ([job|] & w1 & Hclaim).
  - exfalso. apply try_claim_queued_job_Ret in Hclaim as (_ & r & Hold & _).
    apply oldest_queued_Some in Hold as (Hlk & Hq & _).
    by apply (Hnone _ _ Hlk).
  - exists w1. by apply process_once_unclaimed.
Qed.

(** One cycle on the only queued job, with the store up and the network
    down. *)
Lemma failing_cycle cfg j c w :
  clean w -> quiet w -> sole_queued j c (committed w) ->
  exists w' r',
    Kiro.process_once cfg w = (Ret true, w') /\
    clean w' /\ quiet w' /\
    committed w' !! j = Some r' /\
    retry_count r' = Some (c + 1) /\
    (forall j' r, j' <> j -> committed w' !! j' = Some r ->
                  status r <> queued) /\
    (if c + 1 >=? Kiro.max_retries cfg
     then status r' = failed /\ is_Some (error_message r')
     else status r' = queued).
Proof.
  intros Hclean Hquiet [(r & Hlk & Hst & Hc) Hothers].
  pose proof (returns_quietly_try_claim w Hquiet) as [Hq1 [res Hres]].
  destruct (try_claim_queued_job w) as [o w1] eqn:Hclaim. simpl in *.
  subst o. destruct res as [job|].
  2:{ exfalso. apply try_claim_queued_job_Ret in Hclaim as (_ & Hold & _).
      rewrite oldest_queued_None, Hclean in Hold. by apply (Hold _ _ Hlk). }
  destruct (attempt_raises_quietly cfg job w1 Hq1) as (e & w2 & Hatt & Hq2).
  pose proof (returns_quietly_rollback w2 Hq2) as [Hq2' [[] Hrb]].
  pose proof (returns_quietly_retry_decision cfg job e _ Hq2') as [Hq3 [[] Hd]].
  destruct (Kiro.retry_decision cfg job e (rollback w2).2) as [o w3] eqn:Hdec.
  simpl in *. subst o.
  destruct (failed_attempt_state _ _ _ _ _ _ Hclean Hclaim Hatt)
    as (Ec2 & r0 & Hlk0 & Hq0 & _).
  assert (id job = j) as Hid.
  { destruct (decide (id job = j)) as [|Hne]; [done|].
    by destruct (Hothers _ _ Hne Hlk0). }
  rewrite Hid in *. assert (r0 = r) as -> by congruence.
  exists w3.
  pose proof (process_once_settled _ _ _ _ _ _ _ Hclaim Hatt Hrb Hdec)
    as Hrun.
  pose proof (process_once_clean cfg w _ _ Hclean Hrun) as Hclean'.
  apply retry_decision_Ret in Hdec as [_ Hc3]. cbv zeta in Hc3.
  rewrite (rollback_served _ Hrb) in Hc3.
  rewrite Hid, Ec2, Hlk, Hc in Hc3.
  rewrite (alter_alter_insert _ _ _ _ _ Hlk) in Hc3.
  eexists. split; [exact Hrun|]. split; [exact Hclean'|]. split; [exact Hq3|].
  split; [by rewrite Hc3, lookup_insert_eq|].
  split; [|split].
  - destruct (c + 1 >=? Kiro.max_retries cfg); simpl; by rewrite Hc.
  - intros j' r1 Hne Hj'. rewrite Hc3, lookup_insert_ne in Hj' by done.
    by eapply Hothers.
  - destruct (c + 1 >=? Kiro.max_retries cfg); simpl; [|done].
    split; [done | by eexists].
Qed.

Lemma run_steps_S cfg n st :
  Kiro.run_steps cfg (S n) st = Kiro.run_steps cfg n (Kiro.run_step cfg st).
Proof. reflexivity. Qed.

Lemma run_step_drains cfg w w' :
  Kiro.process_once cfg w = (Ret true, w') ->
  Kiro.run_step cfg (Draining, w) = (Draining, w').
Proof. intros H. unfold Kiro.run_step, loop_step. by rewrite H. Qed.

Lemma retry_budget_aux cfg j (d : nat) :
  forall c w,
    clean w -> quiet w -> sole_queued j c (committed w) ->
    d = Z.to_nat (Kiro.max_retries cfg - c - 1) ->
    (forall k, (k <= d)%nat ->
       exists wk r,
         Kiro.run_steps cfg k (Draining, w) = (Draining, wk) /\
         committed wk !! j = Some r /\
         status r = queued /\
         COALESCE (retry_count r) 0 = c + Z.of_nat k) /\
    exists wN r w',
      Kiro.run_steps cfg (S d) (Draining, w) = (Draining, wN) /\
      committed wN !! j = Some r /\
      status r = failed /\
      retry_count r = Some (c + Z.of_nat (S d)) /\
      is_Some (error_message r) /\
      Kiro.run_step cfg (Draining, wN) = (Waiting, w').
Proof.
  induction d as [|d IH]; intros c w Hclean Hquiet Hsole Hd.
  - assert (forall k, (k <= 0)%nat ->
              exists wk r,
                Kiro.run_steps cfg k (Draining, w) = (Draining, wk) /\
                committed wk !! j = Some r /\ status r = queued /\
                COALESCE (retry_count r) 0 = c + Z.of_nat k) as H0.
    { intros k Hk. assert (k = 0)%nat as -> by lia.
      destruct Hsole as [(r & Hlk & Hst & Hc) _].
      exists w, r. repeat split; try done. simpl. lia. }
    split; [exact H0|].
    destruct (failing_cycle cfg j c w Hclean Hquiet Hsole)
      as (w1 & r1 & Hrun & Hclean1 & Hquiet1 & Hlk1 & Hrc1 & Hoth1 & Hcase).
    replace (c + 1 >=? Kiro.max_retries cfg) with true in Hcase
      by (symmetry; rewrite Z.geb_leb; apply Z.leb_le; lia).
    destruct Hcase as [Hst1 Hmsg1].
    destruct (process_once_drained cfg w1 (quiet_next_served _ Hquiet1))
      as [w2 Hlast].
    { intros j' r' Hj'. rewrite Hclean1 in Hj'.
      destruct (decide (j' = j)) as [->|Hne]; [|by eapply Hoth1].
      assert (r' = r1) as -> by congruence. by rewrite Hst1. }
    exists w1, r1, w2. rewrite run_steps_S, (run_step_drains _ _ _ Hrun).
    split; [done|]. split; [done|]. split; [done|].
    split; [rewrite Hrc1; f_equal; lia|]. split; [done|].
    unfold Kiro.run_step, loop_step. by rewrite Hlast.
  - destruct (failing_cycle cfg j c w Hclean Hquiet Hsole)
      as (w1 & r1 & Hrun & Hclean1 & Hquiet1 & Hlk1 & Hrc1 & Hoth1 & Hcase).
    replace (c + 1 >=? Kiro.max_retries cfg) with false in Hcase
      by (symmetry; rewrite Z.geb_leb; apply Z.leb_gt; lia).
    assert (sole_queued j (c + 1) (committed w1)) as Hsole1.
    { split; [|exact Hoth1]. exists r1. by rewrite Hrc1. }
    destruct (IH (c + 1) w1 Hclean1 Hquiet1 Hsole1 ltac:(lia))
      as [IH1 (wN & r & w' & HN & HlkN & HstN & HrcN & HmsgN & Hlast)].
    split.
    + intros [|k] Hk.
      * destruct Hsole as [(r0 & Hlk & Hst & Hc) _].
        exists w, r0. repeat split; try done. simpl. lia.
      * destruct (IH1 k ltac:(lia)) as (wk & rk & Hk1 & Hk2 & Hk3 & Hk4).
        exists wk, rk. rewrite run_steps_S, (run_step_drains _ _ _ Hrun).
        repeat split; try done. lia.
    + exists wN, r, w'. rewrite run_steps_S, (run_step_drains _ _ _ Hrun).
      repeat split; try done. rewrite HrcN. f_equal. lia.
Qed.

(** X9: with the store up, every download failing, and job [j] the only
    queued job, with retry counter [c], the loop attempts the job exactly
    [N = max(1, max_retries - c)] times in a row: before each of these
    cycles it is [queued] with counter [c + k], after the last it is
    [failed] with counter [c + N] and a message, and the next call of
    [process_once] finds nothing and sends the loop to wait. *)
Theorem retry_budget cfg w j c :
  clean w ->
  no_faults w = true ->
  net_down w = true ->
  only_queued j c (committed w) = true ->
  let N := S (Z.to_nat (Kiro.max_retries cfg - c - 1)) in
  (forall k, (k < N)%nat ->
     exists wk r,
       Kiro.run_steps cfg k (Draining, w) = (Draining, wk) /\
       committed wk !! j = Some r /\
       status r = queued /\
       COALESCE (retry_count r) 0 = c + Z.of_nat k) /\
  exists wN r w',
    Kiro.run_steps cfg N (Draining, w) = (Draining, wN) /\
    committed wN !! j = Some r /\
    status r = failed /\
    retry_count r = Some (c + Z.of_nat N) /\
    is_Some (error_message r) /\
    Kiro.run_step cfg (Draining, wN) = (Waiting, w').
Proof.
  intros Hclean Hf Hn Honly N.
  destruct (retry_budget_aux cfg j (Z.to_nat (Kiro.max_retries cfg - c - 1))
              c w Hclean (conj Hf Hn) (only_queued_spec _ _ _ Honly) eq_refl)
    as [H1 H2].
  split; [|exact H2]. intros k Hk. apply H1. unfold N in Hk. lia.
Qed.

Lemma retry_budget_witness :
  (forall k, (k < 3)%nat ->
     exists wk r,
       Kiro.run_steps sample_cfg k (Draining, sample_world lonely_table) =
         (Draining, wk) /\
       committed wk !! "job-b" = Some r /\
       status r = queued /\
       COALESCE (retry_count r) 0 = 0 + Z.of_nat k) /\
  exists wN r w',
    Kiro.run_steps sample_cfg 3 (Draining, sample_world lonely_table) =
      (Draining, wN) /\
    committed wN !! "job-b" = Some r /\
    status r = failed /\
    retry_count r = Some (0 + Z.of_nat 3) /\
    is_Some (error_message r) /\
    Kiro.run_step sample_cfg (Draining, wN) = (Waiting, w').
Proof.
  apply (retry_budget sample_cfg (sample_world lonely_table) "job-b" 0).
  - reflexivity.
  - reflexivity.
  - reflexivity.
  - vm_compute. reflexivity.
Defined.

(** ** Claims in a row, claims undone, ids that do not exist *)

(** X10: two claims in a row never return the same job, and the second job
    is not older than the first: within a session jobs are handed out one
    by one in [created_at] order. *)
Theorem successive_claims_distinct_and_ordered w job1 w1 job2 w2 :
  try_claim_queued_job w = (Ret (Some job1), w1) ->
  try_claim_queued_job w1 = (Ret (Some job2), w2) ->
  id job2 <> id job1 /\
  exists r1 r2,
    working w !! id job1 = Some r1 /\
    working w !! id job2 = Some r2 /\
    status r1 = queued /\ status r2 = queued /\
    created_at r1 <= created_at r2 /\
    working w2 !! id job1 = Some (set_status processing r1) /\
    working w2 !! id job2 = Some (set_status processing r2).
Proof.
  intros H1 H2.
  apply try_claim_queued_job_Ret in H1 as (_ & r1 & Hold1 & Ew1 & _).
  apply try_claim_queued_job_Ret in H2 as (_ & r2 & Hold2 & Ew2 & _).
  apply oldest_queued_Some in Hold1 as (Hlk1 & Hq1 & Hmin1).
  apply oldest_queued_Some in Hold2 as (Hlk2 & Hq2 & _).
  assert (id job2 <> id job1) as Hne.
  { intros Heq. rewrite Ew1, Heq, lookup_alter_eq, Hlk1 in Hlk2.
    simpl in Hlk2. inversion Hlk2; subst. discriminate. }
  split; [done|]. rewrite Ew1, lookup_alter_ne in Hlk2 by done.
  exists r1, r2. repeat split; try done.
  - by apply (Hmin1 (id job2)).
  - by rewrite Ew2, lookup_alter_ne, Ew1, lookup_alter_eq, Hlk1.
  - by rewrite Ew2, lookup_alter_eq, Ew1, lookup_alter_ne, Hlk2.
Qed.

Lemma successive_claims_distinct_and_ordered_witness :
  id (mkOCRJobRow "job-a" "user-1" "https://img.test/menu.png" "sha256:ab"
                  processing 0) <> id (sample_job 0) /\
  exists r1 r2,
    working (sample_world (sample_table None)) !! id (sample_job 0) = Some r1 /\
    working (sample_world (sample_table None))
      !! id (mkOCRJobRow "job-a" "user-1" "https://img.test/menu.png"
                         "sha256:ab" processing 0) = Some r2 /\
    status r1 = queued /\ status r2 = queued /\
    created_at r1 <= created_at r2 /\
    working (claimed (claimed (sample_world (sample_table None))))
      !! id (sample_job 0) = Some (set_status processing r1) /\
    working (claimed (claimed (sample_world (sample_table None))))
      !! id (mkOCRJobRow "job-a" "user-1" "https://img.test/menu.png"
                         "sha256:ab" processing 0) =
      Some (set_status processing r2).
Proof.
  apply (successive_claims_distinct_and_ordered
           (sample_world (sample_table None)) (sample_job 0)
           (claimed (sample_world (sample_table None)))).
  - vm_compute. reflexivity.
  - vm_compute. reflexivity.
Defined.

Lemma set_status_same r : set_status (status r) r = r.
Proof. by destruct r. Qed.

(** X11: a claim followed by [requeue_job] of the claimed job puts the
    table of the session back exactly as it was; nothing of the claim is
    left. *)
Theorem claim_then_requeue_restores w job w1 w2 :
  try_claim_queued_job w = (Ret (Some job), w1) ->
  requeue_job (id job) w1 = (Ret tt, w2) ->
  working w2 = working w /\ committed w2 = committed w.
Proof.
  intros H1 H2.
  apply try_claim_queued_job_Ret in H1 as (Ec1 & r & Hold & Ew1 & _).
  apply requeue_job_Ret in H2 as (Ec2 & Ew2).
  apply oldest_queued_Some in Hold as (Hlk & Hq & _).
  split; [|congruence].
  rewrite Ew2, Ew1, (alter_alter_insert _ _ _ _ _ Hlk).
  apply insert_id. rewrite Hlk. f_equal.
  rewrite <- Hq at 1. destruct r; reflexivity.
Qed.

Lemma claim_then_requeue_restores_witness :
  working (requeue_job "job-b"
             (claimed (sample_world (sample_table None)))).2 =
    working (sample_world (sample_table None)) /\
  committed (requeue_job "job-b"
               (claimed (sample_world (sample_table None)))).2 =
    committed (sample_world (sample_table None)).
Proof.
  apply (claim_then_requeue_restores (sample_world (sample_table None))
           (sample_job 0) (claimed (sample_world (sample_table None)))).
  - vm_compute. reflexivity.
  - vm_compute. reflexivity.
Defined.

Lemma alter_missing (t : table) k (f : Row -> Row) :
  t !! k = None -> alter f k t = t.
Proof.
  intros Hk. apply map_eq. intros j. destruct (decide (j = k)) as [->|Hne].
  - by rewrite lookup_alter_eq, Hk.
  - by rewrite lookup_alter_ne.
Qed.

(** X12: for an id that is not in the table, no statement of the store
    raises or writes: [increment_retry] answers 0, and [mark_completed],
    [mark_failed] and [requeue_job] return with the table as it was. *)
Theorem unknown_id_is_a_silent_no_op w jid :
  working w !! jid = None ->
  next_served w = true ->
  (exists w', increment_retry jid w = (Ret 0, w') /\
              working w' = working w /\ committed w' = committed w) /\
  (forall msg,
     exists w', mark_failed jid msg w = (Ret tt, w') /\
                working w' = working w /\ committed w' = committed w) /\
  (exists w', requeue_job jid w = (Ret tt, w') /\
              working w' = working w /\ committed w' = committed w) /\
  (forall text ms conf,
     exists w', mark_completed jid text ms conf w = (Ret tt, w') /\
                working w' = working w /\ committed w' = committed w).
Proof.
  intros Hk Hs. split; [|split; [|split]].
  - destruct (execute_served (increment_statement jid) w Hs)
      as (w' & H & Hw & Hc).
    exists w'. unfold increment_retry. rewrite (bind_Ret _ _ _ _ _ H).
    unfold increment_statement in *. simpl in *.
    rewrite lookup_alter_eq, Hk. simpl.
    split; [done|]. by rewrite Hw, alter_missing.
  - intros msg.
    destruct (execute_served (A := unit)
                (fun t => (alter (set_failed (str_slice_to 2000 msg)) jid t,
                           None)) w Hs) as (w' & H & Hw & Hc).
    exists w'. unfold mark_failed. rewrite (bind_Ret _ _ _ _ _ H).
    split; [done|]. cbn [fst] in Hw. by rewrite Hw, alter_missing.
  - destruct (execute_served (A := unit)
                (fun t => (alter (set_status queued) jid t, None)) w Hs)
      as (w' & H & Hw & Hc).
    exists w'. unfold requeue_job. rewrite (bind_Ret _ _ _ _ _ H).
    split; [done|]. cbn [fst] in Hw. by rewrite Hw, alter_missing.
  - intros text ms conf.
    destruct (execute_served (A := unit)
                (fun t => (alter (set_completed
                                    (result_envelope text ms conf) ms
                                    (db_now w)) jid t, None)) w Hs)
      as (w' & H & Hw & Hc).
    exists w'. unfold mark_completed, bind at 1. unfold NOW.
    rewrite (bind_Ret _ _ _ _ _ H).
    split; [done|]. cbn [fst] in Hw. by rewrite Hw, alter_missing.
Qed.

Lemma unknown_id_is_a_silent_no_op_witness :
  (exists w', increment_retry "job-z" (sample_world (sample_table None)) =
                (Ret 0, w') /\
              working w' = working (sample_world (sample_table None)) /\
              committed w' = committed (sample_world (sample_table None))) /\
  (forall msg,
     exists w', mark_failed "job-z" msg (sample_world (sample_table None)) =
                  (Ret tt, w') /\
                working w' = working (sample_world (sample_table None)) /\
                committed w' = committed (sample_world (sample_table None))) /\
  (exists w', requeue_job "job-z" (sample_world (sample_table None)) =
                (Ret tt, w') /\
              working w' = working (sample_world (sample_table None)) /\
              committed w' = committed (sample_world (sample_table None))) /\
  (forall text ms conf,
     exists w', mark_completed "job-z" text ms conf
                  (sample_world (sample_table None)) = (Ret tt, w') /\
                working w' = working (sample_world (sample_table None)) /\
                committed w' = committed (sample_world (sample_table None))).
Proof.
  apply (unknown_id_is_a_silent_no_op (sample_world (sample_table None))
           "job-z").
  - vm_compute. reflexivity.
  - reflexivity.
Defined.

(** ** Configuration: [int(str(n))] *)

Lemma int_digits_digit acc b k c s :
  digit_value c = Some k -> Ascii.eqb c "_" = false ->
  int_digits acc b (String c s) = int_digits (10 * acc + k) true s.
Proof. intros Hd Hu. cbn [int_digits]. by rewrite Hu, Hd. Qed.

Lemma int_digits_acc d :
  forall p,
    int_digits (Z.pos p) true (NilEmpty.string_of_uint d) =
      Some (Z.pos (Pos.of_uint_acc d p)).
Proof.
  induction d as [|d IH|d IH|d IH|d IH|d IH|d IH|d IH|d IH|d IH|d IH];
    intros p; cbn [NilEmpty.string_of_uint Pos.of_uint_acc]; [done|..].
  - rewrite (int_digits_digit _ _ 0) by reflexivity.
    replace (10 * Z.pos p + 0) with (Z.pos (10 * p)) by lia. apply IH.
  - rewrite (int_digits_digit _ _ 1) by reflexivity.
    replace (10 * Z.pos p + 1) with (Z.pos (1 + 10 * p)) by lia. apply IH.
  - rewrite (int_digits_digit _ _ 2) by reflexivity.
    replace (10 * Z.pos p + 2) with (Z.pos (2 + 10 * p)) by lia. apply IH.
  - rewrite (int_digits_digit _ _ 3) by reflexivity.
    replace (10 * Z.pos p + 3) with (Z.pos (3 + 10 * p)) by lia. apply IH.
  - rewrite (int_digits_digit _ _ 4) by reflexivity.
    replace (10 * Z.pos p + 4) with (Z.pos (4 + 10 * p)) by lia. apply IH.
  - rewrite (int_digits_digit _ _ 5) by reflexivity.
    replace (10 * Z.pos p + 5) with (Z.pos (5 + 10 * p)) by lia. apply IH.
  - rewrite (int_digits_digit _ _ 6) by reflexivity.
    replace (10 * Z.pos p + 6) with (Z.pos (6 + 10 * p)) by lia. apply IH.
  - rewrite (int_digits_digit _ _ 7) by reflexivity.
    replace (10 * Z.pos p + 7) with (Z.pos (7 + 10 * p)) by lia. apply IH.
  - rewrite (int_digits_digit _ _ 8) by reflexivity.
    replace (10 * Z.pos p + 8) with (Z.pos (8 + 10 * p)) by lia. apply IH.
  - rewrite (int_digits_digit _ _ 9) by reflexivity.
    replace (10 * Z.pos p + 9) with (Z.pos (9 + 10 * p)) by lia. apply IH.
Qed.

Lemma int_digits_uint d b :
  (d <> Decimal.Nil \/ b = true) ->
  int_digits 0 b (NilEmpty.string_of_uint d) = Some (Z.of_N (Pos.of_uint d)).
Proof.
  revert b.
  induction d as [|d IH|d IH|d IH|d IH|d IH|d IH|d IH|d IH|d IH|d IH];
    intros b Hb; cbn [NilEmpty.string_of_uint Pos.of_uint].
  - destruct Hb as [Hb| ->]; done.
  - rewrite (int_digits_digit _ _ 0) by reflexivity. apply IH. by right.
  - rewrite (int_digits_digit _ _ 1) by reflexivity. apply int_digits_acc.
  - rewrite (int_digits_digit _ _ 2) by reflexivity. apply int_digits_acc.
  - rewrite (int_digits_digit _ _ 3) by reflexivity. apply int_digits_acc.
  - rewrite (int_digits_digit _ _ 4) by reflexivity. apply int_digits_acc.
  - rewrite (int_digits_digit _ _ 5) by reflexivity. apply int_digits_acc.
  - rewrite (int_digits_digit _ _ 6) by reflexivity. apply int_digits_acc.
  - rewrite (int_digits_digit _ _ 7) by reflexivity. apply int_digits_acc.
  - rewrite (int_digits_digit _ _ 8) by reflexivity. apply int_digits_acc.
  - rewrite (int_digits_digit _ _ 9) by reflexivity. apply int_digits_acc.
Qed.

Lemma rstrip_no_space s :
  Forall (fun c => is_space c = false) (list_ascii_of_string s) ->
  rstrip s = s.
Proof.
  induction s as [|c s IH]; [done|]. intros H.
  apply Forall_cons_1 in H as [Hc Hs]. cbn [rstrip]. rewrite (IH Hs).
  destruct s; [by rewrite Hc | done].
Qed.

Lemma digits_no_space d :
  Forall (fun c => is_space c = false)
         (list_ascii_of_string (NilEmpty.string_of_uint d)).
Proof. induction d; cbn; constructor; done. Qed.

Lemma py_int_of_uint d :
  d <> Decimal.Nil ->
  py_int (NilEmpty.string_of_uint d) = Some (Z.of_N (Pos.of_uint d)) /\
  py_int (String "-" (NilEmpty.string_of_uint d)) =
    Some (- Z.of_N (Pos.of_uint d)).
Proof.
  intros Hd. pose proof (digits_no_space d) as Hns.
  pose proof (int_digits_uint d false (or_introl Hd)) as Hval.
  split.
  - unfold py_int. rewrite (rstrip_no_space _ Hns).
    destruct d; try done; rewrite <- Hval; reflexivity.
  - unfold py_int. rewrite rstrip_no_space by (constructor; done).
    cbn [lstrip]. change (is_space "-") with false. cbv iota.
    change (Ascii.eqb "-" "+") with false.
    change (Ascii.eqb "-" "-") with true. cbv iota.
    by rewrite Hval.
Qed.

Lemma py_int_str_of_int n : py_int (str_of_int n) = Some n.
Proof.
  destruct n as [|p|p]; [done|..];
    destruct (py_int_of_uint (Pos.to_uint p)
                (DecimalPos.Unsigned.to_uint_nonnil p)) as [Hpos Hneg];
    rewrite DecimalPos.Unsigned.of_to in Hpos, Hneg;
    unfold str_of_int; cbn [Z.to_int NilZero.string_of_int];
    unfold NilZero.string_of_uint;
    pose proof (DecimalPos.Unsigned.to_uint_nonnil p) as Hnn;
    destruct (Pos.to_uint p); done.
Qed.

(** X13: for integers within the 4300 digits that Python converts between
    [int] and [str], [_get_int] gives the default when the variable is
    not set, and gives [n] when the variable holds the decimal text of
    [n], negative or not: [load_config] checks no range.  The text read
    is ASCII decimal text, so [int] is [py_int] here. *)
Theorem get_int_reads_back env key default n :
  Z.abs default < 10 ^ 4300 ->
  Z.abs n < 10 ^ 4300 ->
  (env !! key = None -> _get_int py_int env key default = default) /\
  (env !! key = Some (str_of_int n) -> _get_int py_int env key default = n) /\
  _get_int py_int (<[key := str_of_int n]> env) key default = n /\
  _get_int py_int (delete key env) key default = default.
Proof.
  intros _ _.
  assert (forall e, e !! key = None ->
                    _get_int py_int e key default = default) as H1.
  { intros e He. unfold _get_int, getenv. by rewrite He, py_int_str_of_int. }
  assert (forall e, e !! key = Some (str_of_int n) ->
                    _get_int py_int e key default = n) as H2.
  { intros e He. unfold _get_int, getenv. by rewrite He, py_int_str_of_int. }
  split; [apply H1|]. split; [apply H2|]. split.
  - apply H2. apply lookup_insert_eq.
  - apply H1. apply lookup_delete_eq.
Qed.

Lemma get_int_reads_back_witness :
  (test_env !! "WORKER_MAX_RETRIES" = None ->
   _get_int py_int test_env "WORKER_MAX_RETRIES" 3 = 3) /\
  (test_env !! "WORKER_MAX_RETRIES" = Some (str_of_int (-1)) ->
   _get_int py_int test_env "WORKER_MAX_RETRIES" 3 = -1) /\
  _get_int py_int (<["WORKER_MAX_RETRIES" := str_of_int (-1)]> test_env)
           "WORKER_MAX_RETRIES" 3 = -1 /\
  _get_int py_int (delete "WORKER_MAX_RETRIES" test_env)
           "WORKER_MAX_RETRIES" 3 = 3.
Proof.
  apply (get_int_reads_back test_env "WORKER_MAX_RETRIES" 3 (-1)).
  - vm_compute. reflexivity.
  - vm_compute. reflexivity.
Defined.

(** X14: in [ocr_worker] the connection string is the first of
    [DATABASE_URL], [SUPABASE_DB_URL] and [POSTGRES_URL] that is set and
    not empty: an empty [DATABASE_URL] does not hide the next one, and a
    set one hides the others. *)
Theorem OcrWorker_database_url_precedence int_ env cfg :
  OcrWorker.load_config int_ env = Ret cfg ->
  OcrWorker.database_url cfg <> EmptyString /\
  (truthy (env !! "DATABASE_URL") = true ->
   env !! "DATABASE_URL" = Some (OcrWorker.database_url cfg)) /\
  (truthy (env !! "DATABASE_URL") = false ->
   truthy (env !! "SUPABASE_DB_URL") = true ->
   env !! "SUPABASE_DB_URL" = Some (OcrWorker.database_url cfg)) /\
  (truthy (env !! "DATABASE_URL") = false ->
   truthy (env !! "SUPABASE_DB_URL") = false ->
   env !! "POSTGRES_URL" = Some (OcrWorker.database_url cfg)).
Proof.
  unfold OcrWorker.load_config. intros H.
  destruct (str_or _ _) as [|c url] eqn:E; [discriminate|].
  inversion H; subst; clear H. cbn [OcrWorker.database_url].
  split; [done|].
  unfold str_or, truthy in *.
  destruct (env !! "DATABASE_URL") as [[|c1 u1]|];
    destruct (env !! "SUPABASE_DB_URL") as [[|c2 u2]|];
    destruct (env !! "POSTGRES_URL") as [[|c3 u3]|];
    repeat split; intros; try discriminate; congruence.
Qed.

Lemma OcrWorker_database_url_precedence_witness :
  OcrWorker.database_url
    (OcrWorker.mkWorkerConfig "postgresql://u:p@h:5432/db" 5000 3 60000 false)
    <> EmptyString /\
  (truthy (test_env !! "DATABASE_URL") = true ->
   test_env !! "DATABASE_URL" =
     Some (OcrWorker.database_url
             (OcrWorker.mkWorkerConfig "postgresql://u:p@h:5432/db"
                                       5000 3 60000 false))) /\
  (truthy (test_env !! "DATABASE_URL") = false ->
   truthy (test_env !! "SUPABASE_DB_URL") = true ->
   test_env !! "SUPABASE_DB_URL" =
     Some (OcrWorker.database_url
             (OcrWorker.mkWorkerConfig "postgresql://u:p@h:5432/db"
                                       5000 3 60000 false))) /\
  (truthy (test_env !! "DATABASE_URL") = false ->
   truthy (test_env !! "SUPABASE_DB_URL") = false ->
   test_env !! "POSTGRES_URL" =
     Some (OcrWorker.database_url
             (OcrWorker.mkWorkerConfig "postgresql://u:p@h:5432/db"
                                       5000 3 60000 false))).
Proof.
  apply (OcrWorker_database_url_precedence py_int test_env).
  vm_compute. reflexivity.
Defined.

(** ** The wake channels, path by path *)




(** ** [setup_credentials] *)

Lemma truthy_spec v :
  truthy v = true <-> exists s, v = Some s /\ s <> EmptyString.
Proof.
  unfold truthy. destruct v as [[|c s]|]; split; try done.
  - intros (s & [= <-] & Hs). done.
  - intros _. by eexists.
  - intros (s & [=] & _).
Qed.





(** ** Counting queued rows *)

Lemma queued_count_lookup (t : table) k r :
  t !! k = Some r ->
  queued_count t =
    ((if Status_eqb (status r) queued then 1 else 0)
     + queued_count (delete k t))%nat.
Proof.
  intros Hk. unfold queued_count.
  rewrite <- (map_to_list_delete t k r Hk), filter_cons.
  case_decide as Hq; simpl in Hq; rewrite ?Hq; [done|].
  by destruct (Status_eqb (status r) queued).
Qed.

Lemma delete_alter_same (t : table) k (f : Row -> Row) :
  delete k (alter f k t) = delete k t.
Proof.
  apply map_eq. intros j. destruct (decide (j = k)) as [->|Hne].
  - by rewrite !lookup_delete_eq.
  - by rewrite !lookup_delete_ne, lookup_alter_ne.
Qed.

Lemma queued_count_none (t : table) :
  (forall j r, t !! j = Some r -> status r <> queued) -> queued_count t = 0%nat.
Proof.
  intros Hnone. unfold queued_count.
  assert (forall kv, kv ∈ map_to_list t ->
            ~ Status_eqb (status kv.2) queued = true) as H.
  { intros [j r] Hin Hq. apply elem_of_map_to_list in Hin.
    apply Status_eqb_eq in Hq. by apply (Hnone j r). }
  induction (map_to_list t) as [|kv l IH]; [done|].
  rewrite filter_cons_False by (apply H; by left).
  apply IH. intros kv' Hin. apply H. by right.
Qed.

(** X19: every claim that returns a job lowers the number of queued rows
    by exactly one, and a claim returns [None] only when that number is
    zero: claims alone empty the queue after exactly as many calls as
    there are queued rows. *)
Theorem claim_lowers_queued_count w res w' :
  try_claim_queued_job w = (Ret res, w') ->
  match res with
  | Some _ => queued_count (working w) = S (queued_count (working w'))
  | None => queued_count (working w) = 0%nat /\ working w' = working w
  end.
Proof.
  intros H. apply try_claim_queued_job_Ret in H as (_ & H).
  destruct res as [job|].
  - destruct H as (r & Hold & Ew & _).
    apply oldest_queued_Some in Hold as (Hlk & Hq & _).
    rewrite (queued_count_lookup _ _ _ Hlk), Hq. simpl.
    assert (working w' !! id job = Some (set_status processing r)) as Hlk'
      by (by rewrite Ew, lookup_alter_eq, Hlk).
    rewrite (queued_count_lookup _ _ _ Hlk'). simpl.
    by rewrite Ew, delete_alter_same.
  - destruct H as (Hold & Ew). rewrite oldest_queued_None in Hold.
    split; [by apply queued_count_none | done].
Qed.

Lemma claim_lowers_queued_count_witness :
  queued_count (working (sample_world (sample_table None))) =
    S (queued_count (working (claimed (sample_world (sample_table None))))).
Proof.
  apply (claim_lowers_queued_count (sample_world (sample_table None))
           (Some (sample_job 0))).
  vm_compute. reflexivity.
Defined.

(** X20: a cycle of [process_once] that returns leaves no uncommitted
    change behind: it has committed or rolled back all it wrote.  So after
    any number of steps of the loop, unless the worker has ended, the
    session shows exactly the committed table. *)
Theorem run_leaves_nothing_uncommitted cfg n ph w :
  working w = committed w ->
  (forall b w',
     Kiro.process_once cfg w = (Ret b, w') -> working w' = committed w') /\
  ((forall e, (Kiro.run_steps cfg n (ph, w)).1 <> Crashed e) ->
   working (Kiro.run_steps cfg n (ph, w)).2 =
     committed (Kiro.run_steps cfg n (ph, w)).2).
Proof.
  intros Hclean. split.
  - intros b w' Hrun. exact (process_once_clean cfg w b w' Hclean Hrun).
  - intros Halive.
    pose proof (run_steps_clean cfg n (ph, w) (clean_running ph w Hclean))
      as H.
    unfold clean_while_running in H.
    destruct (Kiro.run_steps cfg n (ph, w)) as [[| |e] w']; simpl in *;
      [exact H | exact H | by destruct (Halive e)].
Qed.

Lemma run_leaves_nothing_uncommitted_witness :
  (forall b w',
     Kiro.process_once sample_cfg world_decision_fails = (Ret b, w') ->
     working w' = committed w') /\
  ((forall e,
      (Kiro.run_steps sample_cfg 4 (Draining, world_decision_fails)).1
      <> Crashed e) ->
   working (Kiro.run_steps sample_cfg 4 (Draining, world_decision_fails)).2 =
     committed (Kiro.run_steps sample_cfg 4 (Draining, world_decision_fails)).2).
Proof.
  apply (run_leaves_nothing_uncommitted sample_cfg 4 Draining
           world_decision_fails).
  reflexivity.
Defined.

(** The way out that does leave a change behind: the rollback of the
    failed attempt raises.  The exception ends the worker, the claim is
    neither committed nor rolled back, and the job is [processing] in the
    session and [queued] as committed. *)
Example rollback_failure_ends_worker :
  Kiro.process_once sample_cfg world_rollback_fails =
    (Raise db_down, attempted_rollback world_rollback_fails (sample_job 1)) /\
  (Kiro.run_step sample_cfg (Draining, world_rollback_fails)).1 =
    Crashed db_down /\
  status <$> working (Kiro.process_once sample_cfg world_rollback_fails).2
               !! "job-b" = Some processing /\
  status <$> committed (Kiro.process_once sample_cfg world_rollback_fails).2
               !! "job-b" = Some queued.
Proof. vm_compute. repeat split; reflexivity. Qed.
